(** * TalkToStudy: the analyze / narrate / converse controller of [App.tsx]

    A shallow embedding of the React component [App] (src/App.tsx), of the
    part of [ResultPanel] that wires its controls (src/unnamed/part_000) and
    of [askFollowUpQuestion] (src/services/geminiService.ts).

    How React is modelled.  Every handler of a function component is a
    closure over the values of ONE render.  A handler therefore takes two
    arguments: the render [r : ReactState] whose variables it reads
    ([image], [content], [messages], ...) and the world [w : World] it
    updates through the state setters, the refs and the browser objects.
    A control of the page runs the handler of the committed render,
    [react w]; a continuation after an [await], and a callback installed
    by an effect, keep the render they were created in.

    Strings are sequences of UTF-16 code units, as in JavaScript; a literal
    of this file stands for the code units of its (ASCII) characters.

    Numbers are IEEE doubles in the source.  They are modelled by exact
    rationals, extended with +Infinity and NaN where a division by zero can
    produce them; the properties stated below (order, clamping) are
    preserved by rounding, which is monotone. *)

From Stdlib Require Import NArith Strings.Byte QArith Qminmax Sorted.
From stdpp Require Import base option list.

Local Open Scope list_scope.

(** ** JavaScript strings

    A string is a sequence of UTF-16 code units; [jslength] is the
    [length] property. *)

Inductive jsstring :=
  | EmptyJs
  | Unit (c : N) (s : jsstring).

Fixpoint of_bytes (l : list Byte.byte) : jsstring :=
  match l with
  | [] => EmptyJs
  | b :: l' => Unit (Byte.to_N b) (of_bytes l')
  end.

Fixpoint to_bytes (s : jsstring) : option (list Byte.byte) :=
  match s with
  | EmptyJs => Some []
  | Unit c s' =>
      match Byte.of_N c, to_bytes s' with
      | Some b, Some l => Some (b :: l)
      | _, _ => None
      end
  end.

Declare Scope js_scope.
Delimit Scope js_scope with js.
Bind Scope js_scope with jsstring.
String Notation jsstring of_bytes to_bytes : js_scope.
Local Open Scope js_scope.

Fixpoint jsapp (s t : jsstring) : jsstring :=
  match s with
  | EmptyJs => t
  | Unit c s' => Unit c (jsapp s' t)
  end.

Infix "++" := jsapp (right associativity, at level 60) : js_scope.
Local Open Scope list_scope.

Fixpoint jslength (s : jsstring) : nat :=
  match s with
  | EmptyJs => 0
  | Unit _ s' => S (jslength s')
  end.

(** [s === t]. *)
Fixpoint jseqb (s t : jsstring) : bool :=
  match s, t with
  | EmptyJs, EmptyJs => true
  | Unit a s', Unit b t' => N.eqb a b && jseqb s' t'
  | _, _ => false
  end.

(** [s.startsWith(p)]. *)
Fixpoint startsWith (p s : jsstring) : bool :=
  match p, s with
  | EmptyJs, _ => true
  | Unit a p', Unit b s' => N.eqb a b && startsWith p' s'
  | Unit _ _, EmptyJs => false
  end.

Definition nl : jsstring := Unit 10 EmptyJs.

(** [!s] for a string: only the empty string is falsy. *)
Definition str_falsy (s : jsstring) : bool :=
  match s with EmptyJs => true | _ => false end.

(** [!x] for [string | null | undefined]. *)
Definition opt_falsy (o : option jsstring) : bool :=
  match o with None => true | Some s => str_falsy s end.

(** The code units [String.prototype.trim] strips: the WhiteSpace and
    LineTerminator code points of ECMAScript (TAB, LF, VT, FF, CR, SPACE,
    NBSP, U+1680, U+2000 to U+200A, U+2028, U+2029, U+202F, U+205F, U+3000
    and U+FEFF). *)
Definition is_white_space (c : N) : bool :=
  ((9 <=? c) && (c <=? 13) || (c =? 32) || (c =? 160) || (c =? 5760)
   || (8192 <=? c) && (c <=? 8202) || (c =? 8232) || (c =? 8233)
   || (c =? 8239) || (c =? 8287) || (c =? 12288) || (c =? 65279))%N.

Fixpoint trim_start (s : jsstring) : jsstring :=
  match s with
  | EmptyJs => EmptyJs
  | Unit c s' => if is_white_space c then trim_start s' else s
  end.

(** Drops the trailing white space: a code unit is kept when something
    that is not white space follows it or it is not white space itself. *)
Fixpoint trim_end (s : jsstring) : jsstring :=
  match s with
  | EmptyJs => EmptyJs
  | Unit c s' =>
      match trim_end s' with
      | EmptyJs => if is_white_space c then EmptyJs else Unit c EmptyJs
      | t => Unit c t
      end
  end.

Definition trim (s : jsstring) : jsstring := trim_end (trim_start s).

(** [s.split(sep)] for a separator of one code unit. *)
Fixpoint split (sep : N) (s : jsstring) : list jsstring :=
  match s with
  | EmptyJs => [EmptyJs]
  | Unit c s' =>
      if N.eqb c sep then EmptyJs :: split sep s'
      else match split sep s' with
           | [] => [Unit c EmptyJs]
           | t :: ts => Unit c t :: ts
           end
  end.

(** [xs.join(sep)]. *)
Fixpoint join (sep : jsstring) (xs : list jsstring) : jsstring :=
  match xs with
  | [] => EmptyJs
  | [x] => x
  | x :: rest => x ++ sep ++ join sep rest
  end.

(** The code unit of the comma. *)
Definition comma : N := 44.

(** ** Data model (the [types] module) *)

Inductive AppLanguage :=
  | ENGLISH | HINDI | SPANISH | FRENCH | GERMAN
  | CHINESE | JAPANESE | ARABIC | PORTUGUESE | RUSSIAN.

(** The string value of each member of the enum. *)
Definition AppLanguage_value (l : AppLanguage) : jsstring :=
  match l with
  | ENGLISH => "English" | HINDI => "Hindi" | SPANISH => "Spanish"
  | FRENCH => "French" | GERMAN => "German" | CHINESE => "Chinese"
  | JAPANESE => "Japanese" | ARABIC => "Arabic"
  | PORTUGUESE => "Portuguese" | RUSSIAN => "Russian"
  end.

Definition AppLanguage_eqb (a b : AppLanguage) : bool :=
  jseqb (AppLanguage_value a) (AppLanguage_value b).

Record LearningContent := {
  topic : jsstring;
  short_reading : jsstring;
  simple_explanation : jsstring;
  key_points : list jsstring;
  example : jsstring;
  quiz : jsstring
}.

Inductive Role := user | assistant.

Record ChatMessage := { role : Role; text : jsstring }.

Record LangConfig := { code : jsstring; voiceCode : jsstring }.

Definition LANGUAGE_CONFIG (l : AppLanguage) : LangConfig :=
  match l with
  | ENGLISH => {| code := "en-US"; voiceCode := "en-US" |}
  | HINDI => {| code := "hi-IN"; voiceCode := "hi-IN" |}
  | SPANISH => {| code := "es-ES"; voiceCode := "es-ES" |}
  | FRENCH => {| code := "fr-FR"; voiceCode := "fr-FR" |}
  | GERMAN => {| code := "de-DE"; voiceCode := "de-DE" |}
  | CHINESE => {| code := "zh-CN"; voiceCode := "zh-CN" |}
  | JAPANESE => {| code := "ja-JP"; voiceCode := "ja-JP" |}
  | ARABIC => {| code := "ar-SA"; voiceCode := "ar-SA" |}
  | PORTUGUESE => {| code := "pt-BR"; voiceCode := "pt-BR" |}
  | RUSSIAN => {| code := "ru-RU"; voiceCode := "ru-RU" |}
  end.

(** ** JavaScript numbers that a division can produce *)

Inductive jsnum :=
  | Num (q : Q)
  | PosInf
  | NaN.

(** [a / b] for [a >= 0] and [b >= 0] (a character index over a length). *)
Definition js_div (a b : N) : jsnum :=
  if N.eqb b 0 then (if N.eqb a 0 then NaN else PosInf)
  else Num (inject_Z (Z.of_N a) / inject_Z (Z.of_N b)).

(** [x * 100]. *)
Definition js_times100 (x : jsnum) : jsnum :=
  match x with
  | Num q => Num (q * 100)
  | PosInf => PosInf
  | NaN => NaN
  end.

(** [Math.min(x, 100)]: NaN is contagious. *)
Definition js_min100 (x : jsnum) : jsnum :=
  match x with
  | Num q => Num (Qmin q 100)
  | PosInf => Num 100
  | NaN => NaN
  end.

(** [x <= y] on numbers; every comparison with NaN is false. *)
Definition js_le (x y : jsnum) : Prop :=
  match x, y with
  | Num a, Num b => (a <= b)%Q
  | Num _, PosInf => True
  | PosInf, PosInf => True
  | _, _ => False
  end.

(** The number lies in the closed interval [[0,100]]. *)
Definition in_percent_range (x : jsnum) : Prop :=
  js_le (Num 0) x /\ js_le x (Num 100).

(** ** The state of the component

    One field per [useState] of [App] that a handler reads or writes. *)

Record ReactState := {
  image : option jsstring;
  loading : bool;
  error : option jsstring;
  content : option LearningContent;
  language : AppLanguage;
  isSpeaking : bool;
  speechProgress : jsnum;
  isPaused : bool;
  speechVolume : Q;
  chatInput : jsstring;
  chatLoading : bool;
  messages : list ChatMessage;
  isListening : bool
}.

(** The [useState] initial values. *)
Definition initialState : ReactState := {|
  image := None; loading := false; error := None; content := None;
  language := ENGLISH;
  isSpeaking := false; speechProgress := Num 0; isPaused := false;
  speechVolume := 1;
  chatInput := ""; chatLoading := false; messages := []; isListening := false
|}.

(** A [SpeechSynthesisUtterance] object, with the properties [speakContent]
    sets.  Its three event handlers are determined by [utt_text]. *)
Record Utterance := {
  utt_text : jsstring;
  utt_lang : jsstring;
  utt_rate : Q;
  utt_volume : Q
}.

(** What the component asks of its collaborators, in the order of the calls. *)
Inductive Effect :=
  | AnalyzerCall (base64Image : jsstring) (lang : AppLanguage)
  | ResponderCall (historyContext : jsstring) (chatHistory : list ChatMessage)
                  (lang : AppLanguage)
  | SynthCancel
  | SynthPause
  | SynthResume
  | SynthSpeak (u : nat)
  | FileRead
  | RecognitionStart
  | RecognitionStop
  | ConsoleError.

(** A handler suspended at its [await].  The chat continuation keeps the
    render [r] of its closure. *)
Inductive Pending :=
  | PRead
  | PAnalyze
  | PChat (r : ReactState) (historyContext : jsstring)
          (chatHistory : list ChatMessage).

(** The component together with the browser objects it drives.

    [utterances] is the heap of utterance objects, addressed by creation
    index: [currentUtteranceRef] and the queue of [window.speechSynthesis]
    hold references to the same object.  [onresultRender] is the render
    whose [handleSendMessage] the [onresult] of the recognizer in
    [recognitionRef] calls ([None]: the browser has no
    [webkitSpeechRecognition]).  The effect that installs a recognizer has
    no cleanup, so a recognizer that was started goes on listening after
    a newer one has replaced it in the ref: [listeningRender] is the
    render of the [onresult] of the recognizer that is listening, if one
    is. *)
Record World := {
  react : ReactState;
  utterances : list Utterance;
  currentUtteranceRef : option nat;
  synthQueue : list nat;
  synthPaused : bool;
  onresultRender : option ReactState;
  listeningRender : option ReactState;
  inflight : list Pending;
  trace : list Effect
}.

(** ** Record update

    [with_f v x] is [x] with field [f] replaced by [v]. *)

Definition with_image v (s : ReactState) : ReactState :=
  {| image := v; loading := loading s; error := error s;
     content := content s; language := language s;
     isSpeaking := isSpeaking s; speechProgress := speechProgress s;
     isPaused := isPaused s; speechVolume := speechVolume s;
     chatInput := chatInput s; chatLoading := chatLoading s;
     messages := messages s; isListening := isListening s |}.

Definition with_loading v (s : ReactState) : ReactState :=
  {| image := image s; loading := v; error := error s;
     content := content s; language := language s;
     isSpeaking := isSpeaking s; speechProgress := speechProgress s;
     isPaused := isPaused s; speechVolume := speechVolume s;
     chatInput := chatInput s; chatLoading := chatLoading s;
     messages := messages s; isListening := isListening s |}.

Definition with_error v (s : ReactState) : ReactState :=
  {| image := image s; loading := loading s; error := v;
     content := content s; language := language s;
     isSpeaking := isSpeaking s; speechProgress := speechProgress s;
     isPaused := isPaused s; speechVolume := speechVolume s;
     chatInput := chatInput s; chatLoading := chatLoading s;
     messages := messages s; isListening := isListening s |}.

Definition with_content v (s : ReactState) : ReactState :=
  {| image := image s; loading := loading s; error := error s;
     content := v; language := language s; isSpeaking := isSpeaking s;
     speechProgress := speechProgress s; isPaused := isPaused s;
     speechVolume := speechVolume s; chatInput := chatInput s;
     chatLoading := chatLoading s; messages := messages s;
     isListening := isListening s |}.

Definition with_language v (s : ReactState) : ReactState :=
  {| image := image s; loading := loading s; error := error s;
     content := content s; language := v; isSpeaking := isSpeaking s;
     speechProgress := speechProgress s; isPaused := isPaused s;
     speechVolume := speechVolume s; chatInput := chatInput s;
     chatLoading := chatLoading s; messages := messages s;
     isListening := isListening s |}.

Definition with_isSpeaking v (s : ReactState) : ReactState :=
  {| image := image s; loading := loading s; error := error s;
     content := content s; language := language s; isSpeaking := v;
     speechProgress := speechProgress s; isPaused := isPaused s;
     speechVolume := speechVolume s; chatInput := chatInput s;
     chatLoading := chatLoading s; messages := messages s;
     isListening := isListening s |}.

Definition with_speechProgress v (s : ReactState) : ReactState :=
  {| image := image s; loading := loading s; error := error s;
     content := content s; language := language s;
     isSpeaking := isSpeaking s; speechProgress := v;
     isPaused := isPaused s; speechVolume := speechVolume s;
     chatInput := chatInput s; chatLoading := chatLoading s;
     messages := messages s; isListening := isListening s |}.

Definition with_isPaused v (s : ReactState) : ReactState :=
  {| image := image s; loading := loading s; error := error s;
     content := content s; language := language s;
     isSpeaking := isSpeaking s; speechProgress := speechProgress s;
     isPaused := v; speechVolume := speechVolume s;
     chatInput := chatInput s; chatLoading := chatLoading s;
     messages := messages s; isListening := isListening s |}.

Definition with_speechVolume v (s : ReactState) : ReactState :=
  {| image := image s; loading := loading s; error := error s;
     content := content s; language := language s;
     isSpeaking := isSpeaking s; speechProgress := speechProgress s;
     isPaused := isPaused s; speechVolume := v;
     chatInput := chatInput s; chatLoading := chatLoading s;
     messages := messages s; isListening := isListening s |}.

Definition with_chatInput v (s : ReactState) : ReactState :=
  {| image := image s; loading := loading s; error := error s;
     content := content s; language := language s;
     isSpeaking := isSpeaking s; speechProgress := speechProgress s;
     isPaused := isPaused s; speechVolume := speechVolume s;
     chatInput := v; chatLoading := chatLoading s;
     messages := messages s; isListening := isListening s |}.

Definition with_chatLoading v (s : ReactState) : ReactState :=
  {| image := image s; loading := loading s; error := error s;
     content := content s; language := language s;
     isSpeaking := isSpeaking s; speechProgress := speechProgress s;
     isPaused := isPaused s; speechVolume := speechVolume s;
     chatInput := chatInput s; chatLoading := v;
     messages := messages s; isListening := isListening s |}.

Definition with_messages v (s : ReactState) : ReactState :=
  {| image := image s; loading := loading s; error := error s;
     content := content s; language := language s;
     isSpeaking := isSpeaking s; speechProgress := speechProgress s;
     isPaused := isPaused s; speechVolume := speechVolume s;
     chatInput := chatInput s; chatLoading := chatLoading s;
     messages := v; isListening := isListening s |}.

Definition with_isListening v (s : ReactState) : ReactState :=
  {| image := image s; loading := loading s; error := error s;
     content := content s; language := language s;
     isSpeaking := isSpeaking s; speechProgress := speechProgress s;
     isPaused := isPaused s; speechVolume := speechVolume s;
     chatInput := chatInput s; chatLoading := chatLoading s;
     messages := messages s; isListening := v |}.

Definition with_react v (w : World) : World :=
  {| react := v; utterances := utterances w;
     currentUtteranceRef := currentUtteranceRef w;
     synthQueue := synthQueue w; synthPaused := synthPaused w;
     onresultRender := onresultRender w;
     listeningRender := listeningRender w; inflight := inflight w;
     trace := trace w |}.

Definition with_utterances v (w : World) : World :=
  {| react := react w; utterances := v;
     currentUtteranceRef := currentUtteranceRef w;
     synthQueue := synthQueue w; synthPaused := synthPaused w;
     onresultRender := onresultRender w;
     listeningRender := listeningRender w; inflight := inflight w;
     trace := trace w |}.

Definition with_currentUtteranceRef v (w : World) : World :=
  {| react := react w; utterances := utterances w;
     currentUtteranceRef := v; synthQueue := synthQueue w;
     synthPaused := synthPaused w; onresultRender := onresultRender w;
     listeningRender := listeningRender w;
     inflight := inflight w; trace := trace w |}.

Definition with_synthQueue v (w : World) : World :=
  {| react := react w; utterances := utterances w;
     currentUtteranceRef := currentUtteranceRef w; synthQueue := v;
     synthPaused := synthPaused w; onresultRender := onresultRender w;
     listeningRender := listeningRender w;
     inflight := inflight w; trace := trace w |}.

Definition with_synthPaused v (w : World) : World :=
  {| react := react w; utterances := utterances w;
     currentUtteranceRef := currentUtteranceRef w;
     synthQueue := synthQueue w; synthPaused := v;
     onresultRender := onresultRender w;
     listeningRender := listeningRender w; inflight := inflight w;
     trace := trace w |}.

Definition with_onresultRender v (w : World) : World :=
  {| react := react w; utterances := utterances w;
     currentUtteranceRef := currentUtteranceRef w;
     synthQueue := synthQueue w; synthPaused := synthPaused w;
     onresultRender := v;
     listeningRender := listeningRender w; inflight := inflight w; trace := trace w |}.

Definition with_listeningRender v (w : World) : World :=
  {| react := react w; utterances := utterances w;
     currentUtteranceRef := currentUtteranceRef w;
     synthQueue := synthQueue w; synthPaused := synthPaused w;
     onresultRender := onresultRender w;
     listeningRender := v; inflight := inflight w; trace := trace w |}.

Definition with_inflight v (w : World) : World :=
  {| react := react w; utterances := utterances w;
     currentUtteranceRef := currentUtteranceRef w;
     synthQueue := synthQueue w; synthPaused := synthPaused w;
     onresultRender := onresultRender w;
     listeningRender := listeningRender w; inflight := v;
     trace := trace w |}.

Definition with_trace v (w : World) : World :=
  {| react := react w; utterances := utterances w;
     currentUtteranceRef := currentUtteranceRef w;
     synthQueue := synthQueue w; synthPaused := synthPaused w;
     onresultRender := onresultRender w;
     listeningRender := listeningRender w; inflight := inflight w;
     trace := v |}.

(** ** Handlers

    A handler returns nothing and acts on the world; [a ;; b] runs [a] and
    then [b]. *)

Definition Handler : Type := World -> World.

Definition skip : Handler := fun w => w.

Definition seq (a b : Handler) : Handler := fun w => b (a w).

Declare Scope handler_scope.
Delimit Scope handler_scope with H.
Bind Scope handler_scope with Handler.
Notation "a ;; b" := (seq a b)
  (at level 100, b at level 200, right associativity) : handler_scope.

(** A [setX(v)] call, and the functional form [setX(prev => f prev)]. *)
Definition setState (f : ReactState -> ReactState) : Handler :=
  fun w => with_react (f (react w)) w.

Definition setImage v : Handler := setState (with_image v).
Definition setLoading v : Handler := setState (with_loading v).
Definition setError v : Handler := setState (with_error v).
Definition setContent v : Handler := setState (with_content v).
Definition setLanguage v : Handler := setState (with_language v).
Definition setIsSpeaking v : Handler := setState (with_isSpeaking v).
Definition setSpeechProgress v : Handler := setState (with_speechProgress v).
Definition setIsPaused v : Handler := setState (with_isPaused v).
Definition setSpeechVolume v : Handler := setState (with_speechVolume v).
Definition setChatInput v : Handler := setState (with_chatInput v).
Definition setChatLoading v : Handler := setState (with_chatLoading v).
Definition setMessages v : Handler := setState (with_messages v).
Definition setIsListening v : Handler := setState (with_isListening v).

Definition setMessages_prev (f : list ChatMessage -> list ChatMessage) : Handler :=
  setState (fun s => with_messages (f (messages s)) s).

(** A call to a collaborator is appended to the trace. *)
Definition emit (e : Effect) : Handler :=
  fun w => with_trace (trace w ++ [e]) w.

(** The handler reaches its [await]: the rest of it is parked. *)
Definition await (p : Pending) : Handler :=
  fun w => with_inflight (inflight w ++ [p]) w.

(** ** Browser objects *)

(** [window.speechSynthesis]: [cancel] empties the queue, [speak] appends
    to it, [pause] and [resume] set the paused flag of the synthesizer. *)
Definition synth_cancel : Handler :=
  (emit SynthCancel ;; with_synthQueue [])%H.

Definition synth_pause : Handler :=
  (emit SynthPause ;; with_synthPaused true)%H.

Definition synth_resume : Handler :=
  (emit SynthResume ;; with_synthPaused false)%H.

Definition synth_speak (u : nat) : Handler :=
  (emit (SynthSpeak u) ;; fun w => with_synthQueue (synthQueue w ++ [u]) w)%H.

(** [new SpeechSynthesisUtterance(text)], with the default properties of
    the interface; the result is the reference to the new object. *)
Definition new_utterance (text : jsstring) (w : World) : nat * World :=
  (length (utterances w),
   with_utterances
     (utterances w ++
      [{| utt_text := text; utt_lang := ""; utt_rate := 1; utt_volume := 1 |}])
     w).

(** Assignment to a property of the object behind the reference [u]. *)
Definition set_utterance (u : nat) (f : Utterance -> Utterance) : Handler :=
  fun w => with_utterances (alter f u (utterances w)) w.

Definition assign_lang (v : jsstring) (ut : Utterance) : Utterance :=
  {| utt_text := utt_text ut; utt_lang := v;
     utt_rate := utt_rate ut; utt_volume := utt_volume ut |}.

Definition assign_rate (v : Q) (ut : Utterance) : Utterance :=
  {| utt_text := utt_text ut; utt_lang := utt_lang ut;
     utt_rate := v; utt_volume := utt_volume ut |}.

Definition assign_volume (v : Q) (ut : Utterance) : Utterance :=
  {| utt_text := utt_text ut; utt_lang := utt_lang ut;
     utt_rate := utt_rate ut; utt_volume := v |}.

(** A [File] of the file input. *)
Record File := { type : jsstring; size : N }.

(** ** The handlers of [App] *)

Definition UNSUPPORTED_FORMAT : jsstring :=
  "Unsupported file format. Please upload a valid image (JPEG, PNG).".

Definition TOO_LARGE : jsstring :=
  "Image is too large. Please use an image under 10MB.".

Definition READ_FAILED : jsstring := "Failed to process image file.".

Definition ANALYSIS_FAILED : jsstring :=
  "Unable to analyze the image. Please ensure the image is clear and try again.".

(** [handleFileChange], up to [await fileToBase64(file)]. *)
Definition handleFileChange (files : list File) : Handler :=
  (setError None ;;
   match files with
   | file :: _ =>
       if negb (startsWith "image/" (type file)) then
         setError (Some UNSUPPORTED_FORMAT)
       else if (10 * 1024 * 1024 <? size file)%N then
         setError (Some TOO_LARGE)
       else
         (emit FileRead ;; await PRead)
   | [] => skip
   end)%H.

(** What the [FileReader] delivers: [reader.result] or an error. *)
Inductive ReadOutcome :=
  | ReadLoaded (result : jsstring)
  | ReadError.

(** [handleFileChange] after the [await].  [fileToBase64] resolves with
    [result.split(',')[1]], which is [undefined] without a comma. *)
Definition handleFileChange_resume (o : ReadOutcome) : Handler :=
  match o with
  | ReadLoaded result =>
      (setImage (split comma result !! 1%nat) ;; setContent None)%H
  | ReadError => setError (Some READ_FAILED)
  end.

Definition stopSpeaking : Handler :=
  (synth_cancel ;;
   setIsSpeaking false ;;
   setIsPaused false ;;
   setSpeechProgress (Num 0) ;;
   with_currentUtteranceRef None)%H.

Definition togglePause (r : ReactState) : Handler :=
  if isPaused r then
    (synth_resume ;; setIsPaused false)%H
  else
    (synth_pause ;; setIsPaused true)%H.

(** [speakContent]; [forceLang || LANGUAGE_CONFIG[language].voiceCode]
    takes the configured voice when [forceLang] is missing or empty. *)
Definition speakContent (r : ReactState) (text : jsstring)
    (forceLang : option jsstring) : Handler :=
  (stopSpeaking ;;
   fun w =>
     let '(utterance, w1) := new_utterance text w in
     (with_currentUtteranceRef (Some utterance) ;;
      set_utterance utterance
        (assign_lang (match forceLang with
                      | Some l => if str_falsy l
                                  then voiceCode (LANGUAGE_CONFIG (language r))
                                  else l
                      | None => voiceCode (LANGUAGE_CONFIG (language r))
                      end)) ;;
      set_utterance utterance (assign_rate (9 # 10)) ;;
      set_utterance utterance (assign_volume (speechVolume r)) ;;
      setIsSpeaking true ;;
      synth_speak utterance) w1)%H.

(** [utterance.onboundary] of the utterance behind [u]: [totalLength] is
    the length of the text the utterance was created with. *)
Definition utterance_onboundary (u : nat) (name : jsstring) (charIndex : N)
  : Handler :=
  fun w =>
    match utterances w !! u with
    | Some ut =>
        let totalLength := N.of_nat (jslength (utt_text ut)) in
        if jseqb name "word" then
          let percent := js_times100 (js_div charIndex totalLength) in
          setSpeechProgress (js_min100 percent) w
        else w
    | None => w
    end.

Definition utterance_onend : Handler :=
  (setIsSpeaking false ;;
   setSpeechProgress (Num 100) ;;
   setIsPaused false)%H.

Definition utterance_onerror : Handler :=
  (setIsSpeaking false ;; setIsPaused false)%H.

(** [handleAnalyze], up to [await analyzeImageContent(image, language)]. *)
Definition handleAnalyze (r : ReactState) : Handler :=
  match image r with
  | Some img =>
      if str_falsy img then skip
      else
        (setLoading true ;;
         setError None ;;
         stopSpeaking ;;
         emit (AnalyzerCall img (language r)) ;;
         await PAnalyze)%H
  | None => skip
  end.

(** The promise of [analyzeImageContent] is fulfilled with a record or
    rejected. *)
Inductive AnalyzerOutcome :=
  | Fulfilled (result : LearningContent)
  | Rejected.

(** [handleAnalyze] after the [await]: the [try], the [catch] and the
    [finally]. *)
Definition handleAnalyze_resume (o : AnalyzerOutcome) : Handler :=
  (match o with
   | Fulfilled result => (setContent (Some result) ;; setMessages [])
   | Rejected => (emit ConsoleError ;; setError (Some ANALYSIS_FAILED))
   end ;;
   setLoading false)%H.

Definition textToRead (c : LearningContent) : jsstring :=
  nl ++ "      Topic: " ++ topic c ++ ". " ++
  nl ++ "      Simple Explanation: " ++ simple_explanation c ++ ". " ++
  nl ++ "      Key Points: " ++ join ". " (key_points c) ++ ". " ++
  nl ++ "      Example: " ++ example c ++ "." ++
  nl ++ "    ".

Definition handleReadAloud (r : ReactState) : Handler :=
  match content r with
  | Some c => speakContent r (textToRead c) None
  | None => skip
  end.

(** The effect on [speechVolume], run after a render that changed it. *)
Definition volumeEffect (r : ReactState) : Handler :=
  fun w =>
    match currentUtteranceRef w with
    | Some u => set_utterance u (assign_volume (speechVolume r)) w
    | None => w
    end.

(** [toggleListening]; [recognitionRef.current] is null when the browser
    has no recognizer.  [start()] makes the recognizer of the ref the one
    that listens. *)
Definition toggleListening (r : ReactState) : Handler :=
  fun w =>
    match onresultRender w with
    | Some r0 =>
        if isListening r then emit RecognitionStop w
        else (setIsListening true ;;
              emit RecognitionStart ;;
              with_listeningRender (Some r0))%H w
    | None =>
        if isListening r then w else setIsListening true w
    end.

Definition chatContext (c : LearningContent) : jsstring :=
  nl ++ "      Topic: " ++ topic c ++
  nl ++ "      Extracted Text: " ++ short_reading c ++
  nl ++ "      Explanation: " ++ simple_explanation c ++
  nl ++ "      Key Points: " ++ join nl (key_points c) ++
  nl ++ "      Example: " ++ example c ++
  nl ++ "    ".

(** [textOverride || chatInput]: a missing or empty override gives the
    input buffer of the render. *)
Definition messageText (r : ReactState) (textOverride : option jsstring) : jsstring :=
  match textOverride with
  | Some t => if str_falsy t then chatInput r else t
  | None => chatInput r
  end.

(** [handleSendMessage], up to [await askFollowUpQuestion(...)]. *)
Definition handleSendMessage (r : ReactState) (textOverride : option jsstring)
  : Handler :=
  let text := messageText r textOverride in
  match content r with
  | Some c =>
      if str_falsy (trim text) then skip
      else
        let userMsg := {| role := user; text := text |} in
        (setMessages_prev (fun prev => prev ++ [userMsg]) ;;
         setChatInput "" ;;
         setChatLoading true ;;
         let context := chatContext c in
         let currentHistory := messages r ++ [userMsg] in
         emit (ResponderCall context currentHistory (language r)) ;;
         await (PChat r context currentHistory))%H
  | None => skip
  end.

(** [handleSendMessage] after the [await], in the closure of render [r]. *)
Definition handleSendMessage_resume (r : ReactState) (responseText : jsstring)
  : Handler :=
  let aiMsg := {| role := assistant; text := responseText |} in
  (setMessages_prev (fun prev => prev ++ [aiMsg]) ;;
   setChatLoading false ;;
   speakContent r responseText None)%H.

(** ** The Conversational Responder ([geminiService.askFollowUpQuestion]) *)

(** A computation returns a value or throws; [try_catch] is the
    [try { ... } catch (error) { ... }] block. *)
Inductive Completion (A : Type) :=
  | Return (a : A)
  | Throw.

Arguments Return {A} a.
Arguments Throw {A}.

#[global] Instance Completion_ret : MRet Completion := fun A a => Return a.

#[global] Instance Completion_bind : MBind Completion :=
  fun A B f m => match m with Return a => f a | Throw => Throw end.

Definition try_catch {A} (body : Completion A) (handler : Completion A)
  : Completion A :=
  match body with
  | Return a => Return a
  | Throw => handler
  end.

Record Part := { part_text : jsstring }.

Record Content := { content_role : jsstring; content_parts : list Part }.

Record GenerateContentRequest := {
  req_model : jsstring;
  req_contents : list Content;
  req_systemInstruction : jsstring
}.

(** The [text] getter of the response, [undefined] when the model returned
    no text. *)
Record GenerateContentResponse := { response_text : option jsstring }.

Definition NO_ANSWER : jsstring := "I couldn't generate an answer at the moment.".

Definition NO_CONNECTION : jsstring :=
  "Sorry, I am having trouble connecting to the brain right now.".

Section GeminiService.

(** The SDK: the constructor of the client and the request, either of
    which may throw (the request, by rejecting its promise). *)
Variable newGoogleGenAI : Completion unit.
Variable generateContent : GenerateContentRequest -> Completion GenerateContentResponse.

Definition askFollowUpQuestion (historyContext : jsstring)
    (chatHistory : list ChatMessage) (language : AppLanguage)
  : Completion jsstring :=
  try_catch
    (_ ← newGoogleGenAI;
     let model := "gemini-2.5-flash" in
     let systemInstruction : jsstring :=
       (nl ++ "      You are a learning assistant. The user is asking a question about a topic they just studied." ++
        nl ++ "      The context of the study material is:" ++
        nl ++ "      " ++ historyContext ++
        nl ++ "      " ++
        nl ++ "      Respond in " ++ AppLanguage_value language ++
              ". Keep the answer brief, encouraging, and simple (under 2-3 sentences)." ++
        nl ++ "    ")%js in
     let contents :=
       map (fun msg =>
              {| content_role := match role msg with
                                 | user => "user"
                                 | assistant => "model"
                                 end;
                 content_parts := [ {| part_text := text msg |} ] |})
           chatHistory in
     response ← generateContent
                  {| req_model := model; req_contents := contents;
                     req_systemInstruction := systemInstruction |};
     mret (match response_text response with
           | Some t => if str_falsy t then NO_ANSWER else t
           | None => NO_ANSWER
           end))
    (* console.error("Gemini Chat Error:", error) *)
    (mret NO_CONNECTION).

End GeminiService.

(** ** The page: controls, events and the event loop *)

(** The props [setVolume] of [ResultPanel] is the state setter itself. *)
Definition setVolume (v : Q) : Handler := setSpeechVolume v.

(** After the render that follows a change of [speechVolume], React runs
    the effect that depends on it; an unchanged value runs nothing. *)
Definition commitVolume (previous : Q) : Handler :=
  fun w =>
    if Qeq_bool previous (speechVolume (react w)) then w
    else volumeEffect (react w) w.

(** The slider: [setVolume(parseFloat(e.target.value))], then the commit. *)
Definition SetVolume (v : Q) : Handler :=
  fun w => commitVolume (speechVolume (react w)) (setVolume v w).

(** The values of [<input type="range" min="0" max="1" step="0.1">]. *)
Definition sliderValue (k : nat) : Q := Z.of_nat k # 10.

(** After the render that follows a change of [language], the effect
    installs a new recognizer whose [onresult] closes over that render. *)
Definition commitLanguage (previous : AppLanguage) : Handler :=
  fun w =>
    if AppLanguage_eqb previous (language (react w)) then w
    else match onresultRender w with
         | Some _ => with_onresultRender (Some (react w)) w
         | None => w
         end.

(** [recognition.onresult] as installed by the effect of render [r]. *)
Definition recognition_onresult (r : ReactState) (transcript : jsstring) : Handler :=
  (setChatInput transcript ;;
   handleSendMessage r (Some transcript))%H.

(** The resolution of a promise a handler awaits.  For the chat it is what
    the SDK does inside [askFollowUpQuestion]. *)
Inductive Settlement :=
  | ReadSettled (o : ReadOutcome)
  | AnalyzeSettled (o : AnalyzerOutcome)
  | ChatSettled (client : Completion unit)
                (response : Completion GenerateContentResponse).

(** The continuation of the parked handler [p] for the settlement [s] of the
    promise it awaits; [None] when [s] is not a settlement of that promise. *)
Definition settle (p : Pending) (s : Settlement) : option Handler :=
  match p, s with
  | PRead, ReadSettled o => Some (handleFileChange_resume o)
  | PAnalyze, AnalyzeSettled o => Some (handleAnalyze_resume o)
  | PChat r historyContext chatHistory, ChatSettled client response =>
      match askFollowUpQuestion client (fun _ => response)
              historyContext chatHistory (language r) with
      | Return responseText => Some (handleSendMessage_resume r responseText)
      | Throw => Some skip
      end
  | _, _ => None
  end.

Inductive Event :=
  | FileChosen (files : list File)
  | ClickRemoveImage
  | SelectLanguage (l : AppLanguage)
  | ClickAnalyze
  | ClickReadAloud
  | ClickStop
  | ClickTogglePause
  | SlideVolume (k : nat)
  | TypeChat (s : jsstring)
  | PressEnter
  | ClickSend
  | ClickClearChat
  | ClickMic
  | VoiceResult (transcript : jsstring)
  | VoiceEnd
  | VoiceError
  | Boundary (u : nat) (name : jsstring) (charIndex : N)
  | UtteranceEnd (u : nat)
  | UtteranceError (u : nat)
  | Settle (i : nat) (s : Settlement).

Definition hasContent (r : ReactState) : bool :=
  match content r with Some _ => true | None => false end.

(** The Analyze button: [onClick={handleAnalyze}] and
    [disabled={!image || loading}]; a disabled button receives no click. *)
Definition clickAnalyze : Handler :=
  fun w =>
    let r := react w in
    if opt_falsy (image r) || loading r then w else handleAnalyze r w.

(** The pause/resume button of [ResultPanel], rendered when there is
    content and [isSpeaking] holds. *)
Definition clickTogglePause : Handler :=
  fun w =>
    let r := react w in
    if hasContent r && isSpeaking r then togglePause r w else w.

(** The same button under its two labels,
    [{isPaused ? "Resume" : "Pause"}]: Pause() is the click while it reads
    Pause, Resume() the click while it reads Resume. *)
Definition clickPause : Handler :=
  fun w =>
    let r := react w in
    if hasContent r && isSpeaking r && negb (isPaused r)
    then togglePause r w else w.

Definition clickResume : Handler :=
  fun w =>
    let r := react w in
    if hasContent r && isSpeaking r && isPaused r
    then togglePause r w else w.

(** The send button: rendered when there is content,
    [disabled={!chatInput.trim() || chatLoading}]. *)
Definition clickSend : Handler :=
  fun w =>
    let r := react w in
    if hasContent r && negb (str_falsy (trim (chatInput r)) || chatLoading r)
    then handleSendMessage r None w else w.

(** The text input, rendered when there is content:
    [onKeyDown={(e) => e.key === 'Enter' && handleSendMessage()}]. *)
Definition pressEnter : Handler :=
  fun w =>
    let r := react w in
    if hasContent r then handleSendMessage r None w else w.

(** One turn of the event loop.  Each control runs the handler of the
    committed render if the page shows it enabled.  The browser may deliver
    the events of any utterance that was created (browsers differ on the
    events of a cancelled one) and the events of the recognizer that is
    listening: its result goes to the [onresult] it was created with, and
    its end or error ends the listening. *)
Definition step (e : Event) : Handler :=
  fun w =>
    let r := react w in
    match e with
    | FileChosen files => handleFileChange files w
    | ClickRemoveImage =>
        if opt_falsy (image r) then w
        else (setImage None ;; setError None)%H w
    | SelectLanguage l => (setLanguage l ;; commitLanguage (language r))%H w
    | ClickAnalyze => clickAnalyze w
    | ClickReadAloud =>
        if hasContent r && negb (isSpeaking r) then handleReadAloud r w else w
    | ClickStop =>
        if hasContent r && isSpeaking r then stopSpeaking w else w
    | ClickTogglePause => clickTogglePause w
    | SlideVolume k =>
        if hasContent r && isSpeaking r && Nat.leb k 10
        then SetVolume (sliderValue k) w else w
    | TypeChat s => if hasContent r then setChatInput s w else w
    | PressEnter => pressEnter w
    | ClickSend => clickSend w
    | ClickClearChat =>
        if hasContent r && negb (Nat.eqb (length (messages r)) 0)
        then setMessages [] w else w
    | ClickMic => if hasContent r then toggleListening r w else w
    | VoiceResult transcript =>
        match listeningRender w with
        | Some r0 => recognition_onresult r0 transcript w
        | None => w
        end
    | VoiceEnd | VoiceError =>
        match listeningRender w with
        | Some _ => (setIsListening false ;; with_listeningRender None)%H w
        | None => w
        end
    | Boundary u name charIndex => utterance_onboundary u name charIndex w
    | UtteranceEnd u =>
        match utterances w !! u with
        | Some _ =>
            (with_synthQueue (filter (fun x => x <> u) (synthQueue w)) ;;
             utterance_onend)%H w
        | None => w
        end
    | UtteranceError u =>
        match utterances w !! u with
        | Some _ =>
            (with_synthQueue (filter (fun x => x <> u) (synthQueue w)) ;;
             utterance_onerror)%H w
        | None => w
        end
    | Settle i s =>
        match inflight w !! i with
        | Some p =>
            match settle p s with
            | Some resume => (with_inflight (delete i (inflight w)) ;; resume)%H w
            | None => w
            end
        | None => w
        end
    end.

Definition run (events : list Event) (w : World) : World :=
  fold_left (fun w e => step e w) events w.

(** The component after mounting: the first render, and the recognizer
    installed by the mount effect when the browser has one. *)
Definition mount (hasRecognition : bool) : World := {|
  react := initialState;
  utterances := [];
  currentUtteranceRef := None;
  synthQueue := [];
  synthPaused := false;
  onresultRender := if hasRecognition then Some initialState else None;
  listeningRender := None;
  inflight := [];
  trace := []
|}.

(** ** Observations used in the statements *)

(** LoadImage as one operation: the file is chosen and, if the handler
    reached its [await], the reader delivers [o] to it. *)
Definition LoadImage (files : list File) (o : ReadOutcome) : Handler :=
  fun w =>
    step (Settle (length (inflight w)) (ReadSettled o))
         (step (FileChosen files) w).

Definition isAnalyzerCall (e : Effect) : bool :=
  match e with AnalyzerCall _ _ => true | _ => false end.

Definition isResponderCall (e : Effect) : bool :=
  match e with ResponderCall _ _ _ => true | _ => false end.

(** How many times the Content Analyzer was invoked so far. *)
Definition analyzerCalls (w : World) : nat :=
  length (List.filter isAnalyzerCall (trace w)).

(** How many times the Conversational Responder was invoked so far. *)
Definition responderCalls (w : World) : nat :=
  length (List.filter isResponderCall (trace w)).

Definition isPAnalyze (p : Pending) : bool :=
  match p with PAnalyze => true | _ => false end.

(** How many analyses await their result. *)
Definition analysesInFlight (w : World) : nat :=
  length (List.filter isPAnalyze (inflight w)).

(** [loading] tells whether an analysis is parked. *)
Definition analysis_guarded (w : World) : Prop :=
  analysesInFlight w = 0%nat \/
  (loading (react w) = true /\ analysesInFlight w = 1%nat).

(** The handler leaves [loading] and the parked analyses alone. *)
Definition analysis_frame (h : Handler) : Prop :=
  forall w,
    loading (react (h w)) = loading (react w) /\
    List.filter isPAnalyze (inflight (h w)) = List.filter isPAnalyze (inflight w).

(** The queue of the synthesizer never holds more than one utterance. *)
Definition single_session (w : World) : Prop := (length (synthQueue w) <= 1)%nat.

(** The values [speechProgress] takes as the browser delivers the
    boundary events [bs] (name and character index) of utterance [u]. *)
Fixpoint session_progress (u : nat) (bs : list (jsstring * N)) (w : World)
  : list jsnum :=
  match bs with
  | [] => []
  | (name, charIndex) :: rest =>
      let w' := utterance_onboundary u name charIndex w in
      speechProgress (react w') :: session_progress u rest w'
  end.

(** The world after those events. *)
Definition after_boundaries (u : nat) (bs : list (jsstring * N)) (w : World)
  : World :=
  fold_left (fun w b => utterance_onboundary u (fst b) (snd b) w) bs w.

(** The character indices of the word boundaries among [bs]. *)
Definition word_indices (bs : list (jsstring * N)) : list N :=
  map snd (List.filter (fun b => jseqb (fst b) "word") bs).

(** Each element is at most the next one. *)
Fixpoint nondecreasing (xs : list jsnum) : Prop :=
  match xs with
  | x :: (y :: _) as rest => js_le x y /\ nondecreasing rest
  | _ => True
  end.

(** ** Sample sessions *)

Definition lesson : LearningContent := {|
  topic := "Photosynthesis";
  short_reading := "Plants make food from light.";
  simple_explanation := "Leaves turn sunlight into sugar.";
  key_points := ["Light"; "Water"; "Air"];
  example := "A plant on a window sill.";
  quiz := "What do leaves need?"
|}.

Definition jpeg : File := {| type := "image/jpeg"; size := 204800 |}.

Definition answers (t : jsstring) : Settlement :=
  ChatSettled (Return tt) (Return {| response_text := Some t |}).

(** An image was chosen and read. *)
Definition upload_events : list Event :=
  [FileChosen [jpeg];
   Settle 0 (ReadSettled (ReadLoaded "data:image/jpeg;base64,QUJD"))].

Definition uploaded : World := run upload_events (mount true).

(** The Analyze button was clicked; the analyzer has not answered. *)
Definition analyze_events : list Event := upload_events ++ [ClickAnalyze].

Definition analyzing : World := run analyze_events (mount true).

(** The analyzer answered with [lesson]. *)
Definition study_events : list Event :=
  analyze_events ++ [Settle 0 (AnalyzeSettled (Fulfilled lesson))].

Definition studied : World := run study_events (mount true).

(** A question was typed and answered. *)
Definition chat_events : list Event :=
  study_events ++
  [TypeChat "What is chlorophyll?"; PressEnter;
   Settle 0 (answers "A green pigment.")].

Definition chatted : World := run chat_events (mount true).

(** The lesson is being read aloud. *)
Definition narrate_events : list Event := study_events ++ [ClickReadAloud].

Definition narrating : World := run narrate_events (mount true).

(** The microphone was used right after the analysis. *)
Definition spoken_question_events : list Event :=
  study_events ++ [ClickMic; VoiceResult "What is chlorophyll?"].

Definition spoken_question : World := run spoken_question_events (mount true).

(** The language was changed after the analysis, a question was typed and
    answered, and then the microphone was used. *)
Definition spoken_after_chat_events : list Event :=
  study_events ++
  [SelectLanguage HINDI; TypeChat "What is chlorophyll?"; PressEnter;
   Settle 0 (answers "A green pigment."); ClickMic;
   VoiceResult "Where is it?"].

Definition spoken_after_chat : World :=
  run spoken_after_chat_events (mount true).

(** A question was sent and is not answered yet; the next one is typed. *)
Definition waiting_events : list Event :=
  study_events ++
  [TypeChat "What is chlorophyll?"; PressEnter; TypeChat "Where is it?"].

Definition waiting : World := run waiting_events (mount true).

(** While the lesson is read aloud a question is sent, the slider is moved
    to 0.3, and then the answer arrives. *)
Definition answered_after_slide_events : list Event :=
  narrate_events ++
  [TypeChat "What is chlorophyll?"; PressEnter; SlideVolume 3;
   Settle 0 (answers "A green pigment.")].

Definition answered_after_slide : World :=
  run answered_after_slide_events (mount true).

(** ** The Content Analyzer ([geminiService.analyzeImageContent]) *)

(** The fields of [learningSchema], all of them required. *)
Definition learningSchema_required : list jsstring :=
  ["topic"; "short_reading"; "simple_explanation"; "key_points"; "example";
   "quiz"].

Inductive AnalysisPart :=
  | InlineData (mimeType : jsstring) (data : jsstring)
  | TextPart (t : jsstring).

Record AnalysisRequest := {
  areq_model : jsstring;
  areq_parts : list AnalysisPart;
  areq_responseMimeType : jsstring;
  areq_responseSchema : list jsstring;
  areq_temperature : Q
}.

Definition analysisPrompt (language : AppLanguage) : jsstring :=
  nl ++ "      You are a helpful, supportive teacher for visually impaired students. " ++
  nl ++ "      Analyze this image (textbook page, handwriting, or notes)." ++
  nl ++ "      " ++
  nl ++ "      Tasks:" ++
  nl ++ "      1. Extract the text visible (OCR)." ++
  nl ++ "      2. Explain the core concept simply." ++
  nl ++ "      3. Provide a real-world example." ++
  nl ++ "      4. Create a quiz question." ++
  nl ++ "      " ++
  nl ++ "      Important:" ++
  nl ++ "      - The output language MUST be " ++ AppLanguage_value language ++ "." ++
  nl ++ "      - If the image contains no text or is blurry, explicitly state that in the 'short_reading' field." ++
  nl ++ "      - Do not hallucinate facts not present in the image context, but use your knowledge to explain the visible topics." ++
  nl ++ "    ".

(** The argument of [ai.models.generateContent]. *)
Definition analysisRequest (base64Image : jsstring) (language : AppLanguage)
  : AnalysisRequest :=
  {| areq_model := "gemini-3-pro-preview";
     areq_parts := [InlineData "image/jpeg" base64Image;
                    TextPart (analysisPrompt language)];
     areq_responseMimeType := "application/json";
     areq_responseSchema := learningSchema_required;
     areq_temperature := 3 # 10 |}.

Section ContentAnalyzer.

(** The SDK and [JSON.parse].  The cast [as LearningContent] checks
    nothing at run time: what the function returns is the value of
    [JSON.parse], whatever it is (a record, [null], [{}], ...), so the
    values of JSON stay abstract here. *)
Variable JsValue : Type.
Variable newGoogleGenAI : Completion unit.
Variable generateContent : AnalysisRequest -> Completion GenerateContentResponse.
Variable JSON_parse : jsstring -> Completion JsValue.

Definition analyzeImageContent (base64Image : jsstring) (language : AppLanguage)
  : Completion JsValue :=
  try_catch
    (_ ← newGoogleGenAI;
     response ← generateContent (analysisRequest base64Image language);
     match response_text response with
     | Some text =>
         if str_falsy text then Throw (* new Error("No response from Gemini") *)
         else JSON_parse text
     | None => Throw
     end)
    (* console.error("Gemini Analysis Error:", error); throw error *)
    Throw.

End ContentAnalyzer.

(** ** More observations *)

(** Every code unit of the string is white space. *)
Fixpoint all_white_space (s : jsstring) : bool :=
  match s with
  | EmptyJs => true
  | Unit c s' => is_white_space c && all_white_space s'
  end.

Definition isPChat (p : Pending) : bool :=
  match p with PChat _ _ _ => true | _ => false end.

(** How many chat requests await their answer. *)
Definition chatsInFlight (w : World) : nat :=
  length (List.filter isPChat (inflight w)).

Definition isRecognitionCall (e : Effect) : bool :=
  match e with RecognitionStart | RecognitionStop => true | _ => false end.

(** [x] and [y] are the same number. *)
Definition js_eq (x y : jsnum) : Prop :=
  match x, y with
  | Num a, Num b => (a == b)%Q
  | PosInf, PosInf => True
  | _, _ => False
  end.

(** [loading] holds exactly while one analysis is parked, and
    [chatLoading] only while a chat request is. *)
Definition indicators_exact (w : World) : Prop :=
  analysesInFlight w = (if loading (react w) then 1%nat else 0%nat) /\
  (chatLoading (react w) = true -> (0 < chatsInFlight w)%nat).

(** The flags of the player: paused only while speaking. *)
Definition player_flags_ok (w : World) : Prop :=
  isPaused (react w) = true -> isSpeaking (react w) = true.

(** The utterance in the queue, if any, is the one [currentUtteranceRef]
    points to, and it exists. *)
Definition ref_tracks_queue (w : World) : Prop :=
  synthQueue w = [] \/
  exists u, currentUtteranceRef w = Some u /\ synthQueue w = [u] /\
            (u < length (utterances w))%nat.


(** The three clicks: pause, stop, read aloud again. *)
Definition pause_stop_replay : list Event :=
  [ClickTogglePause; ClickStop; ClickReadAloud].

(** [s.includes(c)] for one code unit. *)
Fixpoint includes (c : N) (s : jsstring) : bool :=
  match s with
  | EmptyJs => false
  | Unit a s' => N.eqb a c || includes c s'
  end.

(** The narration of the sample session is stopped and started again;
    then the browser delivers the end of the utterance that was cancelled,
    and after it a word boundary of the new one. *)
Definition stale_end_events : list Event :=
  narrate_events ++ [ClickStop; ClickReadAloud; UtteranceEnd 0].

Definition after_stale_end : World := run stale_end_events (mount true).

(** ** Basic facts *)

Lemma lookup_snoc_length {A} (l : list A) (x : A) :
  (l ++ [x]) !! length l = Some x.
Proof. by apply list_lookup_middle. Qed.


Lemma jseqb_eq (s t : jsstring) : jseqb s t = true <-> s = t.
Proof.
  revert t. induction s as [|a s IH]; intros [|b t]; simpl; try done.
  rewrite andb_true_iff, N.eqb_eq, IH. split; [by intros [-> ->]|].
  intros H. by inversion H.
Qed.

(** ** File intake *)



Lemma handleFileChange_accepted file rest w :
  startsWith "image/" (type file) = true ->
  (size file <= 10 * 1024 * 1024)%N ->
  handleFileChange (file :: rest) w
  = await PRead (emit FileRead (setError None w)).
Proof.
  intros H Hs. unfold handleFileChange, seq. rewrite H. simpl.
  by apply N.ltb_ge in Hs as ->.
Qed.

Lemma LoadImage_unfold files o w :
  LoadImage files o w
  = let w1 := handleFileChange files w in
    match inflight w1 !! length (inflight w) with
    | Some p =>
        match settle p (ReadSettled o) with
        | Some resume =>
            resume (with_inflight (delete (length (inflight w)) (inflight w1)) w1)
        | None => w1
        end
    | None => w1
    end.
Proof. reflexivity. Qed.


Lemma LoadImage_accepted file rest o w :
  startsWith "image/" (type file) = true ->
  (size file <= 10 * 1024 * 1024)%N ->
  react (LoadImage (file :: rest) o w)
  = react (handleFileChange_resume o (setError None w)).
Proof.
  intros H Hs. rewrite LoadImage_unfold. cbv zeta.
  rewrite (handleFileChange_accepted _ _ _ H Hs).
  replace (inflight (await PRead (emit FileRead (setError None w))))
    with (inflight w ++ [PRead]) by reflexivity.
  rewrite lookup_snoc_length. simpl. by destruct o.
Qed.



(** ** Analysis *)

Lemma handleAnalyze_starts r w img :
  image r = Some img -> str_falsy img = false ->
  handleAnalyze r w
  = await PAnalyze
      (emit (AnalyzerCall img (language r))
         (stopSpeaking (setError None (setLoading true w)))).
Proof. intros Hi Hf. unfold handleAnalyze. by rewrite Hi, Hf. Qed.

Lemma handleAnalyze_resume_loading o w :
  loading (react (handleAnalyze_resume o w)) = false.
Proof. by destruct o. Qed.

(** C4. When the Content Analyzer rejects, the continuation of
    [handleAnalyze] sets the error message and leaves the LearningRecord
    and the chat log as they were, whatever the state at that moment; in
    particular they are those from before the call when nothing happened in
    between.  A call that starts an analysis sets [loading], and the
    continuation clears it on fulfilment and on rejection alike. *)
Theorem C4_Analyze_failure_is_atomic (r : ReactState) (w : World)
    (img : jsstring) (o : AnalyzerOutcome) :
  image r = Some img -> str_falsy img = false ->
  (forall w', error (react (handleAnalyze_resume Rejected w')) = Some ANALYSIS_FAILED /\
              content (react (handleAnalyze_resume Rejected w')) = content (react w') /\
              messages (react (handleAnalyze_resume Rejected w')) = messages (react w') /\
              loading (react (handleAnalyze_resume o w')) = false) /\
  loading (react (handleAnalyze r w)) = true /\
  inflight (handleAnalyze r w) = inflight w ++ [PAnalyze] /\
  loading (react (handleAnalyze_resume o (handleAnalyze r w))) = false /\
  error (react (handleAnalyze_resume Rejected (handleAnalyze r w)))
    = Some ANALYSIS_FAILED /\
  content (react (handleAnalyze_resume Rejected (handleAnalyze r w)))
    = content (react w) /\
  messages (react (handleAnalyze_resume Rejected (handleAnalyze r w)))
    = messages (react w).
Proof.
  intros Hi Hf. split.
  - intros w'. repeat split; apply handleAnalyze_resume_loading.
  - rewrite (handleAnalyze_starts _ _ _ Hi Hf).
    repeat split; apply handleAnalyze_resume_loading.
Qed.

(** ** The Conversational Responder *)

(** C6. [askFollowUpQuestion] returns a string whatever the SDK does: the
    text of the model when there is one, the fixed sentence [NO_ANSWER]
    when the response has no text, and the fixed sentence [NO_CONNECTION]
    when the client cannot be built or the request throws.  It never
    throws. *)
Theorem C6_askFollowUpQuestion_never_raises
    (newGoogleGenAI : Completion unit)
    (generateContent : GenerateContentRequest -> Completion GenerateContentResponse)
    (historyContext : jsstring) (chatHistory : list ChatMessage)
    (language : AppLanguage) :
  let answer :=
    askFollowUpQuestion newGoogleGenAI generateContent
      historyContext chatHistory language in
  (exists s : jsstring, answer = Return s) /\
  (newGoogleGenAI = Throw -> answer = Return NO_CONNECTION) /\
  ((forall req, generateContent req = Throw) -> answer = Return NO_CONNECTION) /\
  (forall t, newGoogleGenAI = Return tt ->
             (forall req, generateContent req = Return {| response_text := t |}) ->
             answer = Return (match t with
                              | Some s => if str_falsy s then NO_ANSWER else s
                              | None => NO_ANSWER
                              end)) /\
  (answer = Return NO_CONNECTION \/ answer = Return NO_ANSWER \/
   exists req s, generateContent req = Return {| response_text := Some s |} /\
                 str_falsy s = false /\ answer = Return s).
Proof.
  cbv zeta. unfold askFollowUpQuestion, try_catch.
  destruct newGoogleGenAI as [[]|]; simpl.
  - match goal with
    | |- context [generateContent ?q] =>
        set (req := q); destruct (generateContent req) as [[t]|] eqn:Hg
    end; simpl.
    + repeat split.
      * eauto.
      * discriminate.
      * intros H. rewrite H in Hg. discriminate.
      * intros t' _ H. rewrite H in Hg. by inversion Hg.
      * destruct t as [s|]; [destruct (str_falsy s) eqn:Hs|]; eauto 10.
    + repeat split; eauto.
      * intros t' _ H. rewrite H in Hg. discriminate.
  - repeat split; eauto. discriminate.
Qed.

(** Witness: the SDK rejects every request, then answers without text, then
    answers with a text. *)
Lemma C6_askFollowUpQuestion_never_raises_witness :
  askFollowUpQuestion (Return tt) (fun _ => Throw) "ctx"
    [ {| role := user; text := "why?" |} ] ENGLISH = Return NO_CONNECTION /\
  askFollowUpQuestion (Return tt) (fun _ => Return {| response_text := None |})
    "ctx" [ {| role := user; text := "why?" |} ] ENGLISH = Return NO_ANSWER /\
  askFollowUpQuestion (Return tt)
    (fun _ => Return {| response_text := Some "Because." |})
    "ctx" [ {| role := user; text := "why?" |} ] ENGLISH = Return "Because.".
Proof.
  split; [|split].
  - destruct (C6_askFollowUpQuestion_never_raises (Return tt) (fun _ => Throw)
                "ctx" [ {| role := user; text := "why?" |} ] ENGLISH)
      as (_ & _ & H & _).
    apply H. reflexivity.
  - destruct (C6_askFollowUpQuestion_never_raises (Return tt)
                (fun _ => Return {| response_text := None |})
                "ctx" [ {| role := user; text := "why?" |} ] ENGLISH)
      as (_ & _ & _ & H & _).
    apply (H None); reflexivity.
  - destruct (C6_askFollowUpQuestion_never_raises (Return tt)
                (fun _ => Return {| response_text := Some "Because." |})
                "ctx" [ {| role := user; text := "why?" |} ] ENGLISH)
      as (_ & _ & _ & H & _).
    apply (H (Some "Because.")); reflexivity.
Defined.

(** Witness: a second analysis of the same image fails after a chat; the
    lesson and the two chat turns stay. *)
Lemma C4_Analyze_failure_is_atomic_witness :
  loading (react (handleAnalyze (react chatted) chatted)) = true /\
  loading (react (handleAnalyze_resume Rejected
                    (handleAnalyze (react chatted) chatted))) = false /\
  content (react (handleAnalyze_resume Rejected
                    (handleAnalyze (react chatted) chatted))) = Some lesson /\
  length (messages (react (handleAnalyze_resume Rejected
                             (handleAnalyze (react chatted) chatted)))) = 2%nat.
Proof.
  destruct (C4_Analyze_failure_is_atomic (react chatted) chatted "QUJD" Rejected)
    as (_ & H1 & _ & H2 & _ & H3 & H4); [reflexivity | reflexivity |].
  rewrite H1, H2, H3, H4. repeat split.
Defined.

(** *** At most one analysis in flight *)

Lemma filter_snoc {A} (f : A -> bool) (l : list A) (x : A) :
  List.filter f (l ++ [x]) = List.filter f l ++ (if f x then [x] else []).
Proof. rewrite List.filter_app. simpl. by destruct (f x). Qed.

Lemma filter_delete_length {A} (f : A -> bool) (l : list A) (i : nat) (x : A) :
  l !! i = Some x ->
  length (List.filter f l)
  = (length (List.filter f (delete i l)) + (if f x then 1 else 0))%nat.
Proof.
  revert i. induction l as [|a l IH]; intros [|i] H; simpl in *; try done.
  - inversion H; subst. destruct (f x); simpl; lia.
  - specialize (IH _ H). destruct (f a); simpl; lia.
Qed.

Lemma filter_delete_other {A} (f : A -> bool) (l : list A) (i : nat) (x : A) :
  l !! i = Some x -> f x = false ->
  List.filter f (delete i l) = List.filter f l.
Proof.
  revert i. induction l as [|a l IH]; intros [|i] H Hf; simpl in *; try done.
  - inversion H; subst. by rewrite Hf.
  - by rewrite (IH _ H Hf).
Qed.

Ltac frame :=
  intros ?; repeat case_match; simpl;
  rewrite ?filter_snoc; simpl; rewrite ?app_nil_r; split; reflexivity.

Lemma frame_handleFileChange files : analysis_frame (handleFileChange files).
Proof. unfold handleFileChange, seq. frame. Qed.

Lemma frame_handleFileChange_resume o : analysis_frame (handleFileChange_resume o).
Proof. unfold handleFileChange_resume, seq. frame. Qed.

Lemma frame_speakContent r t f : analysis_frame (speakContent r t f).
Proof. intros w. split; reflexivity. Qed.

Lemma frame_handleSendMessage r o : analysis_frame (handleSendMessage r o).
Proof. unfold handleSendMessage, seq. frame. Qed.

Lemma frame_handleSendMessage_resume r t :
  analysis_frame (handleSendMessage_resume r t).
Proof. unfold handleSendMessage_resume, seq. frame. Qed.

Lemma frame_step e :
  match e with ClickAnalyze | Settle _ _ => True | _ => analysis_frame (step e) end.
Proof.
  destruct e; try exact I; unfold step.
  - apply frame_handleFileChange.
  - unfold seq. frame.
  - unfold seq, commitLanguage. frame.
  - intros w. destruct (hasContent _ && _); [|done].
    unfold handleReadAloud. destruct (content _); [apply frame_speakContent|done].
  - frame.
  - unfold clickTogglePause, togglePause, seq. frame.
  - unfold SetVolume, commitVolume, volumeEffect. frame.
  - frame.
  - unfold pressEnter. intros w. case_match; [apply frame_handleSendMessage|done].
  - unfold clickSend. intros w. case_match; [apply frame_handleSendMessage|done].
  - frame.
  - unfold toggleListening, seq. frame.
  - intros w. destruct (listeningRender w) as [r0|]; [|done].
    apply (frame_handleSendMessage r0 _ (setChatInput transcript w)).
  - frame.
  - frame.
  - unfold utterance_onboundary. frame.
  - unfold seq. frame.
  - unfold seq. frame.
Qed.

Lemma frame_preserves h w :
  analysis_frame h -> analysis_guarded w -> analysis_guarded (h w).
Proof.
  intros Hf Hw. destruct (Hf w) as [Hl Hi].
  unfold analysis_guarded, analysesInFlight in *. by rewrite Hl, Hi.
Qed.

Lemma clickAnalyze_disabled w :
  opt_falsy (image (react w)) || loading (react w) = true -> clickAnalyze w = w.
Proof. intros H. unfold clickAnalyze. by rewrite H. Qed.

Lemma clickAnalyze_enabled w :
  opt_falsy (image (react w)) = false -> loading (react w) = false ->
  exists img,
    image (react w) = Some img /\ str_falsy img = false /\
    clickAnalyze w
    = await PAnalyze
        (emit (AnalyzerCall img (language (react w)))
           (stopSpeaking (setError None (setLoading true w)))).
Proof.
  intros Hi Hl. unfold clickAnalyze. rewrite Hi, Hl. simpl.
  destruct (image (react w)) as [img|] eqn:E; [|discriminate].
  exists img. simpl in Hi. repeat split; [done|].
  by apply handleAnalyze_starts.
Qed.

Lemma clickAnalyze_guarded w :
  analysis_guarded w -> analysis_guarded (clickAnalyze w).
Proof.
  intros Hw.
  destruct (opt_falsy (image (react w)) || loading (react w)) eqn:E.
  - by rewrite clickAnalyze_disabled.
  - apply orb_false_iff in E as [Hi Hl].
    destruct (clickAnalyze_enabled w Hi Hl) as (img & _ & _ & ->).
    right. split; [done|].
    destruct Hw as [H0|[Ht _]]; [|congruence].
    unfold analysesInFlight in *. simpl. rewrite filter_snoc. simpl.
    rewrite length_app, H0. done.
Qed.

Lemma settle_guarded w i p s resume :
  inflight w !! i = Some p -> settle p s = Some resume ->
  analysis_guarded w ->
  analysis_guarded (resume (with_inflight (delete i (inflight w)) w)).
Proof.
  intros Hp Hs Hw. destruct (isPAnalyze p) eqn:Ep.
  - destruct p; try discriminate. destruct s; try discriminate.
    inversion Hs; subst resume. left.
    pose proof (filter_delete_length isPAnalyze _ _ _ Hp) as Hlen. simpl in Hlen.
    unfold analysis_guarded, analysesInFlight in *.
    replace (inflight (handleAnalyze_resume o
               (with_inflight (delete i (inflight w)) w)))
      with (delete i (inflight w)) by (by destruct o).
    destruct Hw as [H0|[_ H1]]; lia.
  - assert (Hr : analysis_frame resume).
    { destruct p, s; try discriminate; simpl in Hs.
      - inversion Hs. apply frame_handleFileChange_resume.
      - destruct (askFollowUpQuestion _ _ _ _ _); inversion Hs.
        + apply frame_handleSendMessage_resume.
        + by intros ?. }
    apply frame_preserves; [done|].
    unfold analysis_guarded, analysesInFlight in *. simpl.
    by rewrite (filter_delete_other _ _ _ _ Hp Ep).
Qed.

Lemma step_guarded e w : analysis_guarded w -> analysis_guarded (step e w).
Proof.
  intros Hw. pose proof (frame_step e) as Hf.
  destruct e; try (by apply frame_preserves).
  - by apply clickAnalyze_guarded.
  - unfold step. destruct (inflight w !! i) as [p|] eqn:Hp; [|done].
    destruct (settle p s) as [resume|] eqn:Hs; [|done].
    by apply (settle_guarded w i p s).
Qed.

Lemma run_guarded events w :
  analysis_guarded w -> analysis_guarded (run events w).
Proof.
  revert w. induction events as [|e events IH]; intros w Hw; [done|].
  simpl. apply IH. by apply step_guarded.
Qed.

Lemma mount_guarded b : analysis_guarded (mount b).
Proof. by left. Qed.

(** C1. Analyze() is the click on the Analyze button, the only caller of
    [handleAnalyze]; between two clicks React commits the render, so each
    click meets the [disabled] attribute of the state before it.  In every
    state with [loading] set the click changes nothing, and in particular
    invokes nothing.  When the button is enabled, the first of two clicks
    in a row invokes the Content Analyzer and sets [loading], and the
    second is such a no-op: together exactly one invocation.  In every
    state the page can reach at most one analysis is in flight. *)
Theorem C1_analyze_button_guard (events : list Event) (hasRecognition : bool)
    (w : World) :
  (loading (react w) = true ->
     clickAnalyze w = w /\ analyzerCalls (clickAnalyze w) = analyzerCalls w) /\
  (opt_falsy (image (react w)) = false -> loading (react w) = false ->
     analyzerCalls (clickAnalyze w) = S (analyzerCalls w) /\
     loading (react (clickAnalyze w)) = true /\
     clickAnalyze (clickAnalyze w) = clickAnalyze w /\
     analyzerCalls (clickAnalyze (clickAnalyze w)) = S (analyzerCalls w)) /\
  (analysesInFlight (run events (mount hasRecognition)) <= 1)%nat.
Proof.
  split; [|split].
  - intros Hl.
    assert (E : clickAnalyze w = w).
    { apply clickAnalyze_disabled. rewrite Hl. apply orb_true_r. }
    by rewrite E.
  - intros Hi Hl.
    destruct (clickAnalyze_enabled w Hi Hl) as (img & _ & _ & E).
    assert (Hl' : loading (react (clickAnalyze w)) = true) by (by rewrite E).
    assert (Hn : analyzerCalls (clickAnalyze w) = S (analyzerCalls w)).
    { rewrite E. unfold analyzerCalls. simpl.
      rewrite !filter_snoc. simpl. rewrite app_nil_r, length_app. simpl. lia. }
    assert (E2 : clickAnalyze (clickAnalyze w) = clickAnalyze w).
    { apply clickAnalyze_disabled. rewrite Hl'. apply orb_true_r. }
    repeat split; try done. by rewrite E2.
  - destruct (run_guarded events _ (mount_guarded hasRecognition)) as [H|[_ H]];
      lia.
Qed.

(** Witness: with the image uploaded, the first click starts the analysis
    and the second one is lost on the disabled button. *)
Lemma C1_analyze_button_guard_witness :
  analyzerCalls (clickAnalyze (clickAnalyze uploaded)) = 1%nat /\
  clickAnalyze analyzing = analyzing.
Proof.
  split.
  - destruct (C1_analyze_button_guard [] true uploaded) as (_ & H & _).
    destruct H as (_ & _ & _ & H); [reflexivity | reflexivity |].
    rewrite H. reflexivity.
  - destruct (C1_analyze_button_guard [] true analyzing) as (H & _).
    destruct H as [H _]; [reflexivity|]. exact H.
Defined.

(** ** Pause and resume *)

Lemma togglePause_effect r w :
  isPaused (react (togglePause r w)) = negb (isPaused r) /\
  isSpeaking (react (togglePause r w)) = isSpeaking (react w) /\
  speechProgress (react (togglePause r w)) = speechProgress (react w) /\
  trace (togglePause r w)
    = trace w ++ [if isPaused r then SynthResume else SynthPause].
Proof. unfold togglePause. by destruct (isPaused r). Qed.

(** C2. Pause() and Resume() are the two faces of the one button of the
    player, which is on the page only while [isSpeaking] holds and reads
    Resume exactly while [isPaused] holds.  When the narrator is not
    speaking neither of them can be issued: the click changes nothing.
    When it is not paused there is no Resume to issue, and a Resume
    changes nothing (and when it is paused, no Pause).  Where they do
    apply, Pause sets and Resume clears [isPaused], and neither touches
    [isSpeaking] or the progress. *)
Theorem C2_pause_resume_noops (w : World) :
  (isSpeaking (react w) = false ->
     clickPause w = w /\ clickResume w = w /\ clickTogglePause w = w) /\
  (isPaused (react w) = false -> clickResume w = w) /\
  (isPaused (react w) = true -> clickPause w = w) /\
  clickTogglePause w
    = (if isPaused (react w) then clickResume w else clickPause w) /\
  (hasContent (react w) = true -> isSpeaking (react w) = true ->
   isPaused (react w) = false ->
     isPaused (react (clickPause w)) = true /\
     isSpeaking (react (clickPause w)) = true /\
     speechProgress (react (clickPause w)) = speechProgress (react w) /\
     trace (clickPause w) = trace w ++ [SynthPause]) /\
  (hasContent (react w) = true -> isSpeaking (react w) = true ->
   isPaused (react w) = true ->
     isPaused (react (clickResume w)) = false /\
     isSpeaking (react (clickResume w)) = true /\
     speechProgress (react (clickResume w)) = speechProgress (react w) /\
     trace (clickResume w) = trace w ++ [SynthResume]).
Proof.
  unfold clickPause, clickResume, clickTogglePause.
  split; [|split; [|split; [|split; [|split]]]].
  - intros ->. by rewrite !andb_false_r.
  - intros ->. by rewrite andb_false_r.
  - intros ->. by rewrite andb_false_r.
  - destruct (hasContent (react w)), (isSpeaking (react w)),
      (isPaused (react w)); reflexivity.
  - intros Hc Hs Hp. rewrite Hc, Hs, Hp. simpl.
    destruct (togglePause_effect (react w) w) as (H1 & H2 & H3 & H4).
    rewrite H1, H2, H3, H4, Hp, Hs. repeat split.
  - intros Hc Hs Hp. rewrite Hc, Hs, Hp. simpl.
    destruct (togglePause_effect (react w) w) as (H1 & H2 & H3 & H4).
    rewrite H1, H2, H3, H4, Hp, Hs. repeat split.
Qed.

(** Witness: after the analysis nothing is read aloud, and a click on
    either face of the button changes nothing; while the lesson is read
    aloud, Pause pauses and Resume does nothing. *)
Lemma C2_pause_resume_noops_witness :
  clickPause studied = studied /\ clickResume studied = studied /\
  clickResume narrating = narrating /\
  isPaused (react (clickPause narrating)) = true.
Proof.
  destruct (C2_pause_resume_noops studied) as (H & _).
  destruct (H eq_refl) as (H1 & H2 & _).
  destruct (C2_pause_resume_noops narrating) as (_ & H3 & _ & _ & H4 & _).
  destruct H4 as (H4 & _); [reflexivity | reflexivity | reflexivity |].
  split; [exact H1|]. split; [exact H2|]. split; [exact (H3 eq_refl)|exact H4].
Defined.

(** ** Narration *)

Lemma speakContent_unfold r text forceLang w :
  speakContent r text forceLang w
  = let u := length (utterances w) in
    let lang := match forceLang with
                | Some l => if str_falsy l
                            then voiceCode (LANGUAGE_CONFIG (language r))
                            else l
                | None => voiceCode (LANGUAGE_CONFIG (language r))
                end in
    {| react := with_isSpeaking true
                  (with_speechProgress (Num 0)
                     (with_isPaused false (with_isSpeaking false (react w))));
       utterances :=
         alter (assign_volume (speechVolume r)) u
           (alter (assign_rate (9 # 10)) u
              (alter (assign_lang lang) u
                 (utterances w ++
                  [{| utt_text := text; utt_lang := ""; utt_rate := 1;
                      utt_volume := 1 |}])));
       currentUtteranceRef := Some u;
       synthQueue := [u];
       synthPaused := synthPaused w;
       onresultRender := onresultRender w;
       listeningRender := listeningRender w;
       inflight := inflight w;
       trace := (trace w ++ [SynthCancel]) ++ [SynthSpeak u] |}.
Proof. reflexivity. Qed.

(** The object [speakContent] creates, as the synthesizer receives it. *)
Lemma speakContent_utterance r text forceLang w :
  utterances (speakContent r text forceLang w) !! length (utterances w)
  = Some {| utt_text := text;
            utt_lang := match forceLang with
                        | Some l => if str_falsy l
                                    then voiceCode (LANGUAGE_CONFIG (language r))
                                    else l
                        | None => voiceCode (LANGUAGE_CONFIG (language r))
                        end;
            utt_rate := 9 # 10;
            utt_volume := speechVolume r |}.
Proof.
  rewrite speakContent_unfold. cbv zeta. simpl utterances.
  rewrite !list_lookup_alter_eq, lookup_snoc_length. reflexivity.
Qed.

Ltac queue :=
  unfold single_session; intros ? ?; repeat case_match; simpl; try lia; try done.

Lemma single_handleSendMessage r o w :
  single_session w -> single_session (handleSendMessage r o w).
Proof. revert w. unfold handleSendMessage, seq. queue. Qed.

Lemma single_settle p s resume w :
  settle p s = Some resume -> single_session w -> single_session (resume w).
Proof.
  unfold single_session. intros Hs Hw.
  destruct p, s; try discriminate; simpl in Hs.
  - inversion Hs. by destruct o.
  - inversion Hs. by destruct o.
  - destruct (askFollowUpQuestion _ _ _ _ _); inversion Hs; [|done].
    unfold handleSendMessage_resume, seq. rewrite speakContent_unfold. simpl. lia.
Qed.

Lemma step_single e w : single_session w -> single_session (step e w).
Proof.
  revert w. destruct e; unfold step.
  - unfold handleFileChange, seq. queue.
  - queue.
  - unfold seq, commitLanguage. queue.
  - unfold clickAnalyze, handleAnalyze, seq. queue.
  - unfold single_session. intros w Hw. destruct (hasContent _ && _); [|done].
    unfold handleReadAloud. destruct (content _); [|done].
    rewrite speakContent_unfold. simpl. lia.
  - queue.
  - unfold clickTogglePause, togglePause, seq. queue.
  - unfold SetVolume, commitVolume, volumeEffect. queue.
  - queue.
  - unfold pressEnter. intros w Hw. case_match; [|done].
    by apply single_handleSendMessage.
  - unfold clickSend. intros w Hw. case_match; [|done].
    by apply single_handleSendMessage.
  - queue.
  - unfold toggleListening, seq. queue.
  - intros w Hw. destruct (listeningRender w) as [r0|]; [|done].
    by apply (single_handleSendMessage r0 _ (setChatInput transcript w)).
  - queue.
  - queue.
  - unfold utterance_onboundary. queue.
  - unfold single_session, seq. intros w Hw. case_match; [|done]. simpl.
    pose proof (length_filter (fun x => x <> u) (synthQueue w)). lia.
  - unfold single_session, seq. intros w Hw. case_match; [|done]. simpl.
    pose proof (length_filter (fun x => x <> u) (synthQueue w)). lia.
  - intros w Hw. destruct (inflight w !! i) as [p|]; [|done].
    destruct (settle p s) as [resume|] eqn:Hs; [|done].
    exact (single_settle p s resume
             (with_inflight (delete i (inflight w)) w) Hs Hw).
Qed.

Lemma run_single events w : single_session w -> single_session (run events w).
Proof.
  revert w. induction events as [|e events IH]; intros w Hw; [done|].
  simpl. apply IH. by apply step_single.
Qed.

(** C7. [speakContent] first stops: it asks the synthesizer to cancel, and
    only then to speak the new utterance, which is afterwards the only one
    in the queue, whatever was there before; the new session starts with
    progress 0, speaking and not paused, and [currentUtteranceRef] points
    to it.  [stopSpeaking] alone empties the queue and resets progress and
    flags.  In every state the page can reach the queue holds at most one
    utterance. *)
Theorem C7_narration_linearized (events : list Event) (hasRecognition : bool)
    (r : ReactState) (text : jsstring) (forceLang : option jsstring) (w : World) :
  let u := length (utterances w) in
  let w' := speakContent r text forceLang w in
  trace w' = trace w ++ [SynthCancel; SynthSpeak u] /\
  synthQueue w' = [u] /\
  currentUtteranceRef w' = Some u /\
  utt_text <$> utterances w' !! u = Some text /\
  speechProgress (react w') = Num 0 /\
  isSpeaking (react w') = true /\
  isPaused (react w') = false /\
  (synthQueue (stopSpeaking w) = [] /\
   trace (stopSpeaking w) = trace w ++ [SynthCancel] /\
   currentUtteranceRef (stopSpeaking w) = None /\
   speechProgress (react (stopSpeaking w)) = Num 0 /\
   isSpeaking (react (stopSpeaking w)) = false /\
   isPaused (react (stopSpeaking w)) = false) /\
  (length (synthQueue (run events (mount hasRecognition))) <= 1)%nat.
Proof.
  cbv zeta. rewrite speakContent_utterance.
  rewrite speakContent_unfold. cbv zeta. simpl.
  rewrite <- app_assoc. repeat split.
  apply run_single. unfold single_session. simpl. lia.
Qed.

(** *** Progress of one session *)

Local Open Scope Q_scope.

Lemma percent_range (c len : N) :
  (0 < len)%N ->
  0 <= Qmin (inject_Z (Z.of_N c) / inject_Z (Z.of_N len) * 100) 100 <= 100.
Proof.
  intros Hlen. split; [|apply Q.le_min_r].
  apply Q.min_glb; [|discriminate].
  apply Qmult_le_0_compat; [|discriminate].
  apply Qmult_le_0_compat.
  - change 0 with (inject_Z 0). rewrite <- Zle_Qle. lia.
  - apply Qinv_le_0_compat. change 0 with (inject_Z 0). rewrite <- Zle_Qle. lia.
Qed.

Lemma percent_mono (a b len : N) :
  (0 < len)%N -> (a <= b)%N ->
  Qmin (inject_Z (Z.of_N a) / inject_Z (Z.of_N len) * 100) 100
  <= Qmin (inject_Z (Z.of_N b) / inject_Z (Z.of_N len) * 100) 100.
Proof.
  intros Hlen Hab. apply Q.min_le_compat_r.
  apply Qmult_le_compat_r; [|discriminate].
  apply Qmult_le_compat_r.
  - rewrite <- Zle_Qle. lia.
  - apply Qinv_le_0_compat. change 0 with (inject_Z 0). rewrite <- Zle_Qle. lia.
Qed.

Lemma js_le_refl_num (p : Q) : js_le (Num p) (Num p).
Proof. simpl. apply Qle_refl. Qed.

Lemma utterance_onboundary_utterances u name c w :
  utterances (utterance_onboundary u name c w) = utterances w.
Proof. unfold utterance_onboundary. by repeat case_match. Qed.

Lemma utterance_onboundary_word u c w ut :
  utterances w !! u = Some ut ->
  (0 < N.of_nat (jslength (utt_text ut)))%N ->
  react (utterance_onboundary u "word" c w)
  = with_speechProgress
      (Num (Qmin (inject_Z (Z.of_N c)
                  / inject_Z (Z.of_N (N.of_nat (jslength (utt_text ut))))
                  * 100) 100))
      (react w).
Proof.
  intros Hu Hlen. unfold utterance_onboundary. rewrite Hu. simpl.
  unfold js_div. destruct (N.eqb_spec (N.of_nat (jslength (utt_text ut))) 0);
    [lia | reflexivity].
Qed.

Lemma utterance_onboundary_other u name c w :
  jseqb name "word" = false -> utterance_onboundary u name c w = w.
Proof.
  intros Hn. unfold utterance_onboundary. rewrite Hn. by case_match.
Qed.

Lemma session_progress_monotone u ut bs : forall w p,
  utterances w !! u = Some ut ->
  (0 < N.of_nat (jslength (utt_text ut)))%N ->
  speechProgress (react w) = Num p ->
  0 <= p <= 100 ->
  Forall (fun c =>
            p <= Qmin (inject_Z (Z.of_N c)
                       / inject_Z (Z.of_N (N.of_nat (jslength (utt_text ut))))
                       * 100) 100)
         (word_indices bs) ->
  StronglySorted N.le (word_indices bs) ->
  Forall in_percent_range (session_progress u bs w) /\
  nondecreasing (Num p :: session_progress u bs w).
Proof.
  induction bs as [|[name c] bs IH]; intros w p Hu Hlen Hp Hr Hall Hsort.
  - simpl. split; [constructor | exact I].
  - simpl. destruct (jseqb name "word") eqn:Hn.
    + apply jseqb_eq in Hn. subst name.
      unfold word_indices in Hall, Hsort. simpl in Hall, Hsort.
      fold (word_indices bs) in Hall, Hsort.
      apply Forall_cons in Hall as [Hpc Hall].
      apply StronglySorted_inv in Hsort as [Hsort Hrest].
      rewrite (utterance_onboundary_word _ _ _ _ Hu Hlen). simpl.
      set (p' := Qmin _ 100) in *.
      destruct (IH (utterance_onboundary u "word" c w) p') as [IH1 IH2].
      * by rewrite utterance_onboundary_utterances.
      * done.
      * by rewrite (utterance_onboundary_word _ _ _ _ Hu Hlen).
      * apply percent_range, Hlen.
      * rewrite List.Forall_forall in Hrest. apply List.Forall_forall.
        intros c' Hin. apply percent_mono; [done|]. by apply Hrest.
      * done.
      * split.
        -- constructor; [|done]. split; apply percent_range, Hlen.
        -- split; [done|]. exact IH2.
    + rewrite (utterance_onboundary_other _ _ _ _ Hn), Hp.
      assert (Hw : word_indices ((name, c) :: bs) = word_indices bs).
      { unfold word_indices. simpl. by rewrite Hn. }
      rewrite Hw in Hall, Hsort.
      destruct (IH w p Hu Hlen Hp Hr Hall Hsort) as [IH1 IH2].
      split.
      * constructor; [|done]. split; simpl; tauto.
      * split; [apply js_le_refl_num | exact IH2].
Qed.

Lemma after_boundaries_utterances u bs : forall w,
  utterances (after_boundaries u bs w) = utterances w.
Proof.
  unfold after_boundaries.
  induction bs as [|b bs IH]; intros w; [done|].
  simpl. by rewrite IH, utterance_onboundary_utterances.
Qed.

(** C8 (as the code has it). A word boundary of an utterance with a
    non-empty text sets the progress to [min (charIndex / length * 100)
    100], a value in [[0,100]].  The code keeps no running maximum: the
    values set by the word boundaries of a session never decrease when the
    character indices are delivered in non-decreasing order, starting from
    the 0 of the start.  [onend], of whichever utterance, sets the progress
    to exactly 100. *)
Theorem C8_progress_monotone (r : ReactState) (text : jsstring)
    (forceLang : option jsstring) (w : World) (bs : list (jsstring * N)) :
  (0 < jslength text)%nat ->
  StronglySorted N.le (word_indices bs) ->
  let u := length (utterances w) in
  let w1 := speakContent r text forceLang w in
  Forall in_percent_range (session_progress u bs w1) /\
  nondecreasing (speechProgress (react w1) :: session_progress u bs w1) /\
  (forall c w2, utterances w2 !! u = utterances w1 !! u ->
     speechProgress (react (utterance_onboundary u "word" c w2))
     = Num (Qmin (inject_Z (Z.of_N c)
                  / inject_Z (Z.of_N (N.of_nat (jslength text))) * 100) 100)) /\
  speechProgress (react (utterance_onend (after_boundaries u bs w1))) = Num 100 /\
  Forall (fun x => js_le x (Num 100)) (session_progress u bs w1) /\
  (forall w2, speechProgress (react (utterance_onend w2)) = Num 100).
Proof.
  intros Hlen Hsort. cbv zeta.
  pose proof (speakContent_utterance r text forceLang w) as Hu.
  set (w1 := speakContent r text forceLang w) in *.
  set (ut := {| utt_text := text |}) in Hu.
  assert (Hl : (0 < N.of_nat (jslength (utt_text ut)))%N) by (simpl; lia).
  destruct (session_progress_monotone (length (utterances w)) ut bs w1 0
              Hu Hl eq_refl) as [H1 H2].
  { split; discriminate. }
  { apply List.Forall_forall. intros c _. apply percent_range, Hl. }
  { done. }
  repeat split; try done.
  - intros c w2 Hw2. rewrite Hu in Hw2.
    by rewrite (utterance_onboundary_word _ _ _ _ Hw2 Hl).
  - eapply List.Forall_impl; [|exact H1]. by intros x [_ Hx].
Qed.

(** C8 (as stated) fails: the progress follows the character index of each
    event.  For "Hello world", a word boundary at 11 followed by one at 3
    sets 100 and then about 27.  And the end of a cancelled utterance,
    delivered while the next one is spoken, sets 100 in the middle of the
    new session, before its first word boundary. *)
Lemma C8_progress_can_decrease :
  ~ nondecreasing
      (session_progress 0 [("word", 11%N); ("word", 3%N)]
         (speakContent initialState "Hello world" None (mount true))) /\
  isSpeaking (react (step ClickReadAloud (step ClickStop narrating))) = true /\
  synthQueue after_stale_end = [1%nat] /\
  speechProgress (react after_stale_end) = Num 100 /\
  ~ js_le (speechProgress (react after_stale_end))
          (speechProgress (react (step (Boundary 1 "word" 3) after_stale_end))).
Proof.
  split; [|split; [|split; [|split]]]; try (vm_compute; reflexivity).
  - intros H. vm_compute in H. destruct H as [H _]. apply H. reflexivity.
  - intros H. vm_compute in H. apply H. reflexivity.
Qed.

(** Witness: "Hello world", with a word boundary at 0 and one at 6. *)
Lemma C8_progress_monotone_witness :
  nondecreasing
    (Num 0 :: session_progress 0 [("word", 0%N); ("word", 6%N)]
                (speakContent initialState "Hello world" (Some "en-US")
                   (mount true))) /\
  speechProgress
    (react (utterance_onend
              (after_boundaries 0 [("word", 0%N); ("word", 6%N)]
                 (speakContent initialState "Hello world" (Some "en-US")
                    (mount true))))) = Num 100.
Proof.
  destruct (C8_progress_monotone initialState "Hello world" (Some "en-US")
              (mount true) [("word", 0%N); ("word", 6%N)])
    as (_ & H1 & _ & H2 & _).
  - simpl. lia.
  - unfold word_indices. simpl. repeat constructor. lia.
  - split; [exact H1 | exact H2].
Defined.

Local Close Scope Q_scope.

(** ** Volume *)

Lemma SetVolume_changed v w :
  Qeq_bool (speechVolume (react w)) v = false ->
  SetVolume v w
  = volumeEffect (with_speechVolume v (react w)) (setSpeechVolume v w).
Proof. intros H. unfold SetVolume, commitVolume, setVolume. simpl. by rewrite H. Qed.

Lemma sliderValue_range k :
  (k <= 10)%nat -> (0 <= sliderValue k <= 1)%Q.
Proof.
  intros Hk. unfold sliderValue, Qle. simpl. lia.
Qed.

(** Only the slider writes [speechVolume]. *)
Lemma step_speechVolume e w :
  speechVolume (react (step e w)) = speechVolume (react w) \/
  exists k, (k <= 10)%nat /\ speechVolume (react (step e w)) = sliderValue k.
Proof.
  destruct e; unfold step.
  - left. unfold handleFileChange, seq. repeat case_match; reflexivity.
  - left. repeat case_match; reflexivity.
  - left. unfold seq, commitLanguage. repeat case_match; reflexivity.
  - left. unfold clickAnalyze, handleAnalyze, seq. repeat case_match; reflexivity.
  - left. destruct (hasContent _ && _); [|done].
    unfold handleReadAloud. destruct (content _); reflexivity.
  - left. repeat case_match; reflexivity.
  - left. unfold clickTogglePause, togglePause, seq. repeat case_match; reflexivity.
  - destruct (hasContent _ && _ && Nat.leb k 10) eqn:E; [|by left].
    right. exists k. apply andb_true_iff in E as [_ E%Nat.leb_le].
    split; [done|]. unfold SetVolume, commitVolume, volumeEffect.
    repeat case_match; reflexivity.
  - left. repeat case_match; reflexivity.
  - left. unfold pressEnter, handleSendMessage, seq. repeat case_match; reflexivity.
  - left. unfold clickSend, handleSendMessage, seq. repeat case_match; reflexivity.
  - left. repeat case_match; reflexivity.
  - left. unfold toggleListening, seq. repeat case_match; reflexivity.
  - left. unfold recognition_onresult, handleSendMessage, seq.
    repeat case_match; reflexivity.
  - left. repeat case_match; reflexivity.
  - left. repeat case_match; reflexivity.
  - left. unfold utterance_onboundary. repeat case_match; reflexivity.
  - left. unfold seq. repeat case_match; reflexivity.
  - left. unfold seq. repeat case_match; reflexivity.
  - left. destruct (inflight w !! i) as [p|]; [|done].
    destruct (settle p s) as [resume|] eqn:Hs; [|done].
    destruct p, s; try discriminate; simpl in Hs.
    + inversion Hs. destruct o; reflexivity.
    + inversion Hs. destruct o; reflexivity.
    + destruct (askFollowUpQuestion _ _ _ _ _); inversion Hs; reflexivity.
Qed.

Lemma run_speechVolume events : forall w,
  (0 <= speechVolume (react w) <= 1)%Q ->
  (0 <= speechVolume (react (run events w)) <= 1)%Q.
Proof.
  induction events as [|e events IH]; intros w Hw; [done|].
  simpl. apply IH.
  destruct (step_speechVolume e w) as [->|(k & Hk & ->)]; [done|].
  by apply sliderValue_range.
Qed.

(** The slider.  [SetVolume v] stores [v]; the only caller is the slider,
    whose values are the tenths from 0 to 1, so the stored volume lies in
    [[0,1]] in every state the page can reach.  When the value changes,
    the effect copies it to the utterance [currentUtteranceRef] points to,
    if any; and a narration started from the render that follows uses the
    stored value. *)
Theorem C9_SetVolume_stores_and_forwards (v : Q) (w : World)
    (events : list Event) (hasRecognition : bool) :
  speechVolume (react (SetVolume v w)) = v /\
  (forall k, (k <= 10)%nat -> (0 <= sliderValue k <= 1)%Q) /\
  (0 <= speechVolume (react (run events (mount hasRecognition))) <= 1)%Q /\
  (forall u ut,
     currentUtteranceRef w = Some u -> utterances w !! u = Some ut ->
     Qeq_bool (speechVolume (react w)) v = false ->
     utterances (SetVolume v w) !! u = Some (assign_volume v ut)) /\
  (currentUtteranceRef w = None -> utterances (SetVolume v w) = utterances w) /\
  (forall text forceLang,
     utt_volume <$>
       utterances (speakContent (react (SetVolume v w)) text forceLang
                     (SetVolume v w))
       !! length (utterances (SetVolume v w))
     = Some v).
Proof.
  assert (Hv : speechVolume (react (SetVolume v w)) = v).
  { unfold SetVolume, commitVolume, volumeEffect. by repeat case_match. }
  split; [done|]. split; [apply sliderValue_range|].
  split; [apply run_speechVolume; split; discriminate|].
  split; [|split].
  - intros u ut Hu Hut Hne. rewrite (SetVolume_changed _ _ Hne).
    unfold volumeEffect. simpl. rewrite Hu. simpl.
    by rewrite list_lookup_alter_eq, Hut.
  - intros Hu. unfold SetVolume, commitVolume, volumeEffect. simpl.
    rewrite Hu. by case_match.
  - intros text forceLang. by rewrite speakContent_utterance, Hv.
Qed.

(** Witness: while the lesson is read aloud at volume 1, the slider is
    moved to 0.3. *)
Lemma C9_SetVolume_stores_and_forwards_witness :
  utt_volume <$> utterances (SetVolume (3 # 10)%Q narrating) !! 0%nat
    = Some (3 # 10)%Q /\
  speechVolume (react (SetVolume (3 # 10)%Q narrating)) = (3 # 10)%Q.
Proof.
  destruct (C9_SetVolume_stores_and_forwards (3 # 10)%Q narrating [] true)
    as (H0 & _ & _ & H & _).
  split; [|exact H0].
  rewrite (H 0%nat {| utt_text := textToRead lesson; utt_lang := "en-US";
                      utt_rate := (9 # 10)%Q; utt_volume := 1 |});
    reflexivity.
Defined.

(** C9 (failing input). The lesson is read aloud, a question is sent with
    the Enter key, the slider is moved from 1 to 0.3 (the utterance in
    flight follows), and then the answer arrives.  The continuation of
    [handleSendMessage] calls the [speakContent] of the render in which the
    question was sent, whose [speechVolume] is still 1: the narration of
    the answer, started after the change, plays at volume 1 while the
    stored volume, in [[0,1]], is 0.3. *)
Lemma C9_answer_narrated_at_stale_volume :
  (utt_volume <$> utterances (run (narrate_events ++
                                   [TypeChat "What is chlorophyll?"; PressEnter;
                                    SlideVolume 3]) (mount true)) !! 0%nat
   = Some (sliderValue 3)) /\
  speechVolume (react answered_after_slide) = sliderValue 3 /\
  isSpeaking (react answered_after_slide) = true /\
  currentUtteranceRef answered_after_slide = Some 1%nat /\
  synthQueue answered_after_slide = [1%nat] /\
  utterances answered_after_slide !! 1%nat
  = Some {| utt_text := "A green pigment."; utt_lang := "en-US";
            utt_rate := (9 # 10)%Q; utt_volume := 1%Q |}.
Proof. repeat split. Qed.

(** ** Chat *)

Lemma handleSendMessage_ignored r textOverride w :
  str_falsy (trim (messageText r textOverride)) = true \/ content r = None ->
  handleSendMessage r textOverride w = w.
Proof.
  intros [H|H]; unfold handleSendMessage; [rewrite H|by rewrite H].
  by destruct (content r).
Qed.

Lemma handleSendMessage_sends r textOverride w c :
  content r = Some c ->
  str_falsy (trim (messageText r textOverride)) = false ->
  handleSendMessage r textOverride w
  = let userMsg := {| role := user; text := messageText r textOverride |} in
    await (PChat r (chatContext c) (messages r ++ [userMsg]))
      (emit (ResponderCall (chatContext c) (messages r ++ [userMsg]) (language r))
         (setChatLoading true
            (setChatInput ""
               (setMessages_prev (fun prev => prev ++ [userMsg]) w)))).
Proof. intros Hc Ht. unfold handleSendMessage. by rewrite Hc, Ht. Qed.

(** The handler of the committed render: the history sent is the chat log
    with the new user turn at its end. *)
Lemma handleSendMessage_current_render w textOverride c :
  content (react w) = Some c ->
  str_falsy (trim (messageText (react w) textOverride)) = false ->
  let userMsg := {| role := user; text := messageText (react w) textOverride |} in
  let w' := handleSendMessage (react w) textOverride w in
  messages (react w') = messages (react w) ++ [userMsg] /\
  trace w' = trace w ++
             [ResponderCall (chatContext c) (messages (react w'))
                (language (react w))] /\
  chatLoading (react w') = true /\
  chatInput (react w') = "".
Proof.
  intros Hc Ht. cbv zeta. by rewrite (handleSendMessage_sends _ _ _ _ Hc Ht).
Qed.

(** The continuation appends the assistant turn, clears [chatLoading] and
    narrates the answer. *)
Lemma handleSendMessage_resume_narrates r responseText w :
  let w' := handleSendMessage_resume r responseText w in
  messages (react w')
    = messages (react w) ++ [{| role := assistant; text := responseText |}] /\
  chatLoading (react w') = false /\
  trace w' = trace w ++ [SynthCancel; SynthSpeak (length (utterances w))] /\
  utt_text <$> utterances w' !! length (utterances w) = Some responseText.
Proof.
  cbv zeta. unfold handleSendMessage_resume, seq.
  set (w1 := setChatLoading false (setMessages_prev _ w)).
  change (utterances w) with (utterances w1).
  rewrite speakContent_utterance, speakContent_unfold. simpl.
  by rewrite <- app_assoc.
Qed.

(** C5 (failing input). [recognition.onresult] calls the
    [handleSendMessage] of the render in which the recognizer was
    installed: the first render, or the one after the last change of
    language.  Right after an analysis that render has no content, so the
    spoken question is dropped although a LearningRecord exists: no turn is
    appended and the responder is not called.  After a change of language
    and a typed exchange, the spoken question is sent with a history that
    holds only itself, while the chat log holds three turns. *)
Lemma C5_voice_question_uses_stale_render :
  content (react studied) = Some lesson /\
  onresultRender studied = Some initialState /\
  chatInput (react spoken_question) = "What is chlorophyll?" /\
  messages (react spoken_question) = [] /\
  responderCalls spoken_question = 0%nat /\
  messages (react spoken_after_chat)
    = [ {| role := user; text := "What is chlorophyll?" |};
        {| role := assistant; text := "A green pigment." |};
        {| role := user; text := "Where is it?" |} ] /\
  last (trace spoken_after_chat)
    = Some (ResponderCall (chatContext lesson)
              [ {| role := user; text := "Where is it?" |} ] HINDI).
Proof. repeat split. Qed.

(** C10. [handleSendMessage] does not look at [chatLoading]: whenever the
    render it runs in has content and the text is not blank, a call made
    while a request is in flight appends one more user turn, invokes the
    Conversational Responder once more and parks one more continuation.
    The send button is disabled in such a state, but the Enter key and
    [recognition.onresult] call the handler without it. *)
Theorem C10_SendMessage_has_no_inflight_guard (r : ReactState)
    (textOverride : option jsstring) (w : World) (c : LearningContent) :
  content r = Some c ->
  str_falsy (trim (messageText r textOverride)) = false ->
  chatLoading (react w) = true ->
  let userMsg := {| role := user; text := messageText r textOverride |} in
  let w' := handleSendMessage r textOverride w in
  messages (react w') = messages (react w) ++ [userMsg] /\
  trace w' = trace w ++
             [ResponderCall (chatContext c) (messages r ++ [userMsg]) (language r)] /\
  responderCalls w' = S (responderCalls w) /\
  inflight w' = inflight w ++ [PChat r (chatContext c) (messages r ++ [userMsg])] /\
  clickSend w = w /\
  (hasContent (react w) = true ->
   pressEnter w = handleSendMessage (react w) None w) /\
  (forall transcript,
     recognition_onresult r transcript w
     = handleSendMessage r (Some transcript) (setChatInput transcript w)).
Proof.
  intros Hc Ht Hl. cbv zeta.
  rewrite (handleSendMessage_sends _ _ _ _ Hc Ht). cbv zeta.
  repeat split.
  - unfold responderCalls. simpl. rewrite filter_snoc. simpl.
    rewrite length_app. simpl. lia.
  - unfold clickSend. by rewrite Hl, orb_true_r, andb_false_r.
  - intros H. unfold pressEnter. by rewrite H.
Qed.

(** Witness: the first question is not answered yet and the Enter key is
    pressed on a second one; two requests are then in flight. *)
Lemma C10_SendMessage_has_no_inflight_guard_witness :
  chatLoading (react waiting) = true /\
  responderCalls waiting = 1%nat /\
  responderCalls (pressEnter waiting) = 2%nat /\
  length (inflight (pressEnter waiting)) = 2%nat /\
  length (messages (react (pressEnter waiting))) = 2%nat.
Proof.
  destruct (C10_SendMessage_has_no_inflight_guard (react waiting) None waiting
              lesson) as (H1 & _ & H2 & H3 & _ & H4 & _);
    [reflexivity | reflexivity | reflexivity |].
  rewrite (H4 eq_refl), H1, H2, H3. repeat split.
Defined.

(** ** The sample sessions, evaluated *)

(** The typed question of the sample session: the log holds the question
    and the answer, and the answer is the utterance being spoken. *)
Example typed_question_is_answered :
  messages (react chatted)
    = [ {| role := user; text := "What is chlorophyll?" |};
        {| role := assistant; text := "A green pigment." |} ] /\
  chatLoading (react chatted) = false /\
  isSpeaking (react chatted) = true /\
  utt_text <$> (currentUtteranceRef chatted ≫= fun u => utterances chatted !! u)
    = Some "A green pigment.".
Proof. repeat split. Qed.

(** The continuation of a chat request speaks with the volume of the render
    in which the question was sent, not with the stored one. *)
Example answer_spoken_at_the_volume_of_its_render :
  speechVolume (react answered_after_slide) = sliderValue 3 /\
  utt_volume <$> (currentUtteranceRef answered_after_slide
                    ≫= fun u => utterances answered_after_slide !! u)
    = Some 1%Q.
Proof. repeat split. Qed.

(** * Further properties of the code *)

(** ** Analysis, beyond the guard *)

(** X1. [handleAnalyze] does nothing at all when the render has no image
    (null, or the empty string).  With an image it first cancels the
    narration and only then invokes the analyzer, with the image and the
    language of the render; the player is reset and the earlier error is
    cleared. *)
Theorem X1_handleAnalyze_start (r : ReactState) (w : World) :
  (opt_falsy (image r) = true -> handleAnalyze r w = w) /\
  (forall img, image r = Some img -> str_falsy img = false ->
     trace (handleAnalyze r w)
       = trace w ++ [SynthCancel; AnalyzerCall img (language r)] /\
     synthQueue (handleAnalyze r w) = [] /\
     currentUtteranceRef (handleAnalyze r w) = None /\
     isSpeaking (react (handleAnalyze r w)) = false /\
     isPaused (react (handleAnalyze r w)) = false /\
     speechProgress (react (handleAnalyze r w)) = Num 0 /\
     error (react (handleAnalyze r w)) = None).
Proof.
  split.
  - unfold handleAnalyze, opt_falsy. destruct (image r) as [img|]; [|done].
    by intros ->.
  - intros img Hi Hf. rewrite (handleAnalyze_starts _ _ _ Hi Hf). simpl.
    rewrite <- app_assoc. repeat split.
Qed.

(** Witness: on the first render nothing happens; with the uploaded image
    the analyzer is called after the cancel. *)
Lemma X1_handleAnalyze_start_witness :
  handleAnalyze initialState (mount true) = mount true /\
  trace (handleAnalyze (react uploaded) uploaded)
    = trace uploaded ++ [SynthCancel; AnalyzerCall "QUJD" ENGLISH].
Proof.
  destruct (X1_handleAnalyze_start initialState (mount true)) as [H _].
  destruct (X1_handleAnalyze_start (react uploaded) uploaded) as [_ H'].
  split; [apply H; reflexivity|].
  apply (H' "QUJD"); reflexivity.
Defined.



(** ** File intake, after the validation *)

Lemma split_no_separator (c : N) (s : jsstring) :
  includes c s = false -> split c s = [s].
Proof.
  induction s as [|a s IH]; simpl; [done|].
  intros H. apply orb_false_iff in H as [Ha Hs].
  rewrite Ha, (IH Hs). reflexivity.
Qed.

Lemma split_at_first (c : N) (p q : jsstring) :
  includes c p = false ->
  split c (p ++ Unit c q) = p :: split c q.
Proof.
  induction p as [|a p IH]; simpl.
  - intros _. by rewrite N.eqb_refl.
  - intros H. apply orb_false_iff in H as [Ha Hp].
    rewrite Ha, (IH Hp). reflexivity.
Qed.

(** X3. For an image file within the size limit, what LoadImage stores
    depends on the reader alone.  A data URL [p,q] whose header [p] and
    payload [q] hold no other comma stores exactly the payload [q] and
    discards the LearningRecord.  A result without any comma stores no
    image, yet discards the LearningRecord too, and reports nothing.  A
    reader error keeps image and LearningRecord and sets the read-failure
    message.  In none of the three cases is a chat turn touched. *)
Theorem X3_LoadImage_read (file : File) (rest : list File) (w : World) :
  startsWith "image/" (type file) = true ->
  (size file <= 10 * 1024 * 1024)%N ->
  (forall p q, includes comma p = false -> includes comma q = false ->
     image (react (LoadImage (file :: rest) (ReadLoaded (p ++ Unit comma q)) w))
       = Some q /\
     content (react (LoadImage (file :: rest) (ReadLoaded (p ++ Unit comma q)) w))
       = None /\
     error (react (LoadImage (file :: rest) (ReadLoaded (p ++ Unit comma q)) w))
       = None) /\
  (forall s, includes comma s = false ->
     image (react (LoadImage (file :: rest) (ReadLoaded s) w)) = None /\
     content (react (LoadImage (file :: rest) (ReadLoaded s) w)) = None /\
     error (react (LoadImage (file :: rest) (ReadLoaded s) w)) = None) /\
  (image (react (LoadImage (file :: rest) ReadError w)) = image (react w) /\
   content (react (LoadImage (file :: rest) ReadError w)) = content (react w) /\
   error (react (LoadImage (file :: rest) ReadError w)) = Some READ_FAILED) /\
  (forall o, messages (react (LoadImage (file :: rest) o w))
             = messages (react w)).
Proof.
  intros Hty Hs. split; [|split; [|split]].
  - intros p q Hp Hq. rewrite !(LoadImage_accepted _ _ _ _ Hty Hs). simpl.
    rewrite (split_at_first _ _ _ Hp), (split_no_separator _ _ Hq).
    repeat split.
  - intros s Hc. rewrite !(LoadImage_accepted _ _ _ _ Hty Hs). simpl.
    rewrite (split_no_separator _ _ Hc). repeat split.
  - rewrite !(LoadImage_accepted _ _ _ _ Hty Hs). repeat split.
  - intros o. rewrite (LoadImage_accepted _ _ _ _ Hty Hs). by destruct o.
Qed.

(** Witness: the JPEG of the sample session. *)
Lemma X3_LoadImage_read_witness :
  image (react (LoadImage [jpeg] (ReadLoaded "data:image/jpeg;base64,QUJD")
                  (mount true))) = Some "QUJD" /\
  image (react (LoadImage [jpeg] (ReadLoaded "garbage") (mount true))) = None /\
  error (react (LoadImage [jpeg] ReadError (mount true))) = Some READ_FAILED.
Proof.
  destruct (X3_LoadImage_read jpeg [] (mount true))
    as (H1 & H2 & (_ & _ & H3) & _); [reflexivity | vm_compute; discriminate |].
  split; [|split].
  - apply (H1 "data:image/jpeg;base64" "QUJD"); reflexivity.
  - apply (H2 "garbage"); reflexivity.
  - exact H3.
Defined.

(** ** Chat, beyond the guard *)

Lemma trim_start_blank s : all_white_space s = true -> trim_start s = "".
Proof.
  induction s as [|c s IH]; simpl; [done|].
  intros H. apply andb_true_iff in H as [-> Hs]. by apply IH.
Qed.

Lemma trim_start_not_blank s :
  all_white_space s = false ->
  exists c s', trim_start s = Unit c s' /\ is_white_space c = false.
Proof.
  induction s as [|c s IH]; simpl; [done|].
  destruct (is_white_space c) eqn:Hc; simpl; [exact IH|eauto].
Qed.

Lemma trim_end_keeps_head c s :
  is_white_space c = false -> str_falsy (trim_end (Unit c s)) = false.
Proof. intros Hc. simpl. destruct (trim_end s); by rewrite ?Hc. Qed.

(** [!text.trim()] holds exactly for the texts made of white space only. *)
Lemma trim_blank s : str_falsy (trim s) = all_white_space s.
Proof.
  unfold trim. destruct (all_white_space s) eqn:E.
  - by rewrite (trim_start_blank _ E).
  - destruct (trim_start_not_blank _ E) as (c & s' & -> & Hc).
    by apply trim_end_keeps_head.
Qed.

(** X4. [handleSendMessage] leaves the world as it is exactly when the text
    it would send (the override, or the input buffer of the render when the
    override is missing or empty) consists of white space only, or the
    render has no LearningRecord.  Otherwise the text is sent as it is,
    untrimmed.  An empty override behaves like no override. *)
Theorem X4_handleSendMessage_ignored_iff (r : ReactState)
    (textOverride : option jsstring) (w : World) :
  (handleSendMessage r textOverride w = w
   <-> all_white_space (messageText r textOverride) = true \/ content r = None) /\
  (handleSendMessage r textOverride w <> w ->
   last (messages (react (handleSendMessage r textOverride w)))
   = Some {| role := user; text := messageText r textOverride |}) /\
  handleSendMessage r (Some "") w = handleSendMessage r None w.
Proof.
  assert (Hsent : forall c, content r = Some c ->
            all_white_space (messageText r textOverride) = false ->
            trace (handleSendMessage r textOverride w) <> trace w /\
            last (messages (react (handleSendMessage r textOverride w)))
            = Some {| role := user; text := messageText r textOverride |}).
  { intros c Hc Ht. rewrite <- trim_blank in Ht.
    rewrite (handleSendMessage_sends _ _ _ _ Hc Ht). simpl. split.
    - intros E. apply (f_equal length) in E. rewrite length_app in E.
      simpl in E. lia.
    - apply last_snoc. }
  split; [split|split].
  - intros E. destruct (content r) as [c|] eqn:Hc; [|by right].
    destruct (all_white_space (messageText r textOverride)) eqn:Ht; [by left|].
    destruct (Hsent c eq_refl eq_refl) as [Hne _]. by rewrite E in Hne.
  - intros [Ht|Hc]; apply handleSendMessage_ignored; [left|by right].
    by rewrite trim_blank.
  - intros Hne. destruct (content r) as [c|] eqn:Hc.
    + destruct (all_white_space (messageText r textOverride)) eqn:Ht.
      * exfalso. apply Hne. apply handleSendMessage_ignored. left.
        by rewrite trim_blank.
      * by destruct (Hsent c eq_refl eq_refl).
    + exfalso. apply Hne. apply handleSendMessage_ignored. by right.
  - reflexivity.
Qed.

(** Witness: a question of blanks and tabs is ignored; a padded one is
    sent with its padding. *)
Lemma X4_handleSendMessage_ignored_iff_witness :
  handleSendMessage (react studied) (Some "   ") studied = studied /\
  last (messages (react (handleSendMessage (react studied) (Some " why? ")
                           studied)))
    = Some {| role := user; text := " why? " |}.
Proof.
  destruct (X4_handleSendMessage_ignored_iff (react studied) (Some "   ") studied)
    as ([_ H] & _).
  destruct (X4_handleSendMessage_ignored_iff (react studied) (Some " why? ")
              studied) as (_ & H' & _).
  split; [apply H; left; reflexivity|].
  apply H'. intros E. apply (f_equal trace) in E. vm_compute in E. discriminate E.
Defined.

Lemma askFollowUpQuestion_total client generateContent
    historyContext chatHistory language :
  exists answer,
    askFollowUpQuestion client generateContent historyContext chatHistory language
    = Return answer.
Proof.
  unfold askFollowUpQuestion, try_catch.
  destruct client as [[]|]; simpl; [|eauto].
  match goal with |- context [generateContent ?q] =>
    destruct (generateContent q) as [[t]|] end; simpl; eauto.
Qed.

(** X5. Whatever the SDK does, the continuation of a chat request appends
    exactly one assistant turn (the model text or one of the two fixed
    sentences), clears [chatLoading], never sets the error banner, and
    starts a narration of that same text in the voice of the language and
    at the volume of the render the question was sent from. *)
Theorem X5_chat_answer_always_lands (r : ReactState) (historyContext : jsstring)
    (chatHistory : list ChatMessage) (client : Completion unit)
    (response : Completion GenerateContentResponse) (w : World) :
  exists (answer : jsstring) (resume : Handler),
    askFollowUpQuestion client (fun _ => response) historyContext chatHistory
      (language r) = Return answer /\
    settle (PChat r historyContext chatHistory) (ChatSettled client response)
      = Some resume /\
    messages (react (resume w))
      = messages (react w) ++ [{| role := assistant; text := answer |}] /\
    chatLoading (react (resume w)) = false /\
    error (react (resume w)) = error (react w) /\
    content (react (resume w)) = content (react w) /\
    isSpeaking (react (resume w)) = true /\
    synthQueue (resume w) = [length (utterances w)] /\
    utterances (resume w) !! length (utterances w)
      = Some {| utt_text := answer;
                utt_lang := voiceCode (LANGUAGE_CONFIG (language r));
                utt_rate := 9 # 10;
                utt_volume := speechVolume r |}.
Proof.
  destruct (askFollowUpQuestion_total client (fun _ => response)
              historyContext chatHistory (language r)) as [answer Ha].
  exists answer, (handleSendMessage_resume r answer).
  split; [done|]. split; [simpl; by rewrite Ha|].
  unfold handleSendMessage_resume, seq.
  set (w1 := setChatLoading false (setMessages_prev _ w)).
  change (utterances w) with (utterances w1).
  rewrite speakContent_utterance, speakContent_unfold. repeat split.
Qed.

Lemma delete_last_parked {A} (l : list A) (x : A) :
  delete (length l) (l ++ [x]) = l.
Proof. induction l as [|a l IH]; simpl; [done|]. by rewrite IH. Qed.

(** X6. A question typed into the input and sent with the Enter key, then
    answered before anything else happens: the log grows by the user turn
    and the assistant turn, in this order; the trace grows by one call of
    the responder, with the context of the LearningRecord, the log
    including the question and the selected language, followed by the
    cancel and the speak of the answer; the input buffer is empty, the
    indicator is off and no continuation is left parked. *)
Theorem X6_typed_question_round_trip (w : World) (c : LearningContent)
    (client : Completion unit) (response : Completion GenerateContentResponse) :
  content (react w) = Some c ->
  all_white_space (chatInput (react w)) = false ->
  let question := {| role := user; text := chatInput (react w) |} in
  let w2 := step (Settle (length (inflight w)) (ChatSettled client response))
                 (step PressEnter w) in
  exists answer,
    askFollowUpQuestion client (fun _ => response) (chatContext c)
      (messages (react w) ++ [question]) (language (react w)) = Return answer /\
    messages (react w2)
      = messages (react w) ++ [question; {| role := assistant; text := answer |}] /\
    chatInput (react w2) = "" /\
    chatLoading (react w2) = false /\
    responderCalls w2 = S (responderCalls w) /\
    inflight w2 = inflight w /\
    trace w2
      = trace w ++
        [ResponderCall (chatContext c) (messages (react w) ++ [question])
           (language (react w));
         SynthCancel; SynthSpeak (length (utterances w))].
Proof.
  intros Hc Ht. cbv zeta.
  destruct (askFollowUpQuestion_total client (fun _ => response) (chatContext c)
              (messages (react w) ++
               [{| role := user; text := chatInput (react w) |}])
              (language (react w))) as [answer Ha].
  exists answer. split; [done|].
  assert (Hw1 : step PressEnter w
                = handleSendMessage (react w) None w).
  { unfold step, pressEnter, hasContent. by rewrite Hc. }
  rewrite Hw1.
  rewrite (handleSendMessage_sends (react w) None w c Hc)
    by (by rewrite trim_blank).
  cbv zeta.
  match goal with |- context [step (Settle _ _) ?x] => set (w1 := x) end.
  assert (Hin : inflight w1
                = inflight w ++
                  [PChat (react w) (chatContext c)
                     (messages (react w) ++
                      [{| role := user; text := chatInput (react w) |}])])
    by reflexivity.
  unfold step. rewrite Hin, lookup_snoc_length. simpl settle. rewrite Ha.
  unfold seq. rewrite delete_last_parked.
  unfold handleSendMessage_resume, seq. rewrite speakContent_unfold.
  cbv zeta. simpl. rewrite <- !app_assoc. simpl. repeat split.
  - unfold responderCalls. simpl. rewrite !List.filter_app. simpl.
    rewrite !length_app. simpl. lia.
Qed.

(** Witness: the question of the sample session. *)
Lemma X6_typed_question_round_trip_witness :
  messages (react (step (Settle 0 (answers "A green pigment."))
                     (step PressEnter
                        (step (TypeChat "What is chlorophyll?") studied))))
  = [ {| role := user; text := "What is chlorophyll?" |};
      {| role := assistant; text := "A green pigment." |} ].
Proof.
  destruct (X6_typed_question_round_trip
              (step (TypeChat "What is chlorophyll?") studied) lesson
              (Return tt) (Return {| response_text := Some "A green pigment." |}))
    as (answer & Ha & Hm & _); [reflexivity | reflexivity |].
  vm_compute in Ha. inversion Ha; subst answer. exact Hm.
Defined.

(** ** What every turn of the event loop keeps *)

Ltac open_step :=
  unfold step, settle, clickAnalyze, clickTogglePause, clickSend, pressEnter,
    handleFileChange, handleFileChange_resume, handleAnalyze,
    handleAnalyze_resume, handleReadAloud, SetVolume, commitVolume, setVolume,
    volumeEffect, commitLanguage, toggleListening, recognition_onresult,
    handleSendMessage, handleSendMessage_resume, utterance_onboundary,
    utterance_onend, utterance_onerror, togglePause, speakContent,
    stopSpeaking, new_utterance, synth_cancel, synth_speak, synth_pause,
    synth_resume, seq, skip.

(** X7. One turn of the event loop either leaves the chat log empty or
    extends it by at most one turn at its end: turns already in the log
    are never changed, removed one by one, or reordered. *)
Theorem X7_chat_log_append_only (e : Event) (w : World) :
  messages (react (step e w)) = [] \/
  exists tail, messages (react (step e w)) = messages (react w) ++ tail /\
               (length tail <= 1)%nat.
Proof.
  assert (Hsame : forall l : list ChatMessage,
             exists tail, l = l ++ tail /\ (length tail <= 1)%nat).
  { intros l. exists []. by rewrite app_nil_r; simpl; split; [|lia]. }
  assert (Hone : forall (l : list ChatMessage) m,
             exists tail, l ++ [m] = l ++ tail /\ (length tail <= 1)%nat).
  { intros l m. exists [m]. split; [done|simpl; lia]. }
  destruct e; open_step; repeat (case_match; simplify_eq); simpl;
    solve [ by left | right; apply Hsame | right; apply Hone ].
Qed.

Lemma step_loading_exact e w :
  analysesInFlight w = (if loading (react w) then 1%nat else 0%nat) ->
  analysesInFlight (step e w)
  = (if loading (react (step e w)) then 1%nat else 0%nat).
Proof.
  intros Hw. pose proof (frame_step e) as Hf.
  assert (Hframe : forall h, analysis_frame h ->
            analysesInFlight (h w) = (if loading (react (h w)) then 1%nat else 0%nat)).
  { intros h Hh. destruct (Hh w) as [Hl Hi].
    unfold analysesInFlight in *. by rewrite Hl, Hi. }
  destruct e; try (by apply Hframe).
  - change (step ClickAnalyze w) with (clickAnalyze w).
    destruct (opt_falsy (image (react w)) || loading (react w)) eqn:E.
    + by rewrite clickAnalyze_disabled.
    + apply orb_false_iff in E as [Hi Hl].
      destruct (clickAnalyze_enabled w Hi Hl) as (img & _ & _ & ->).
      rewrite Hl in Hw. unfold analysesInFlight in *. simpl.
      rewrite filter_snoc, length_app, Hw. reflexivity.
  - unfold step. destruct (inflight w !! i) as [p|] eqn:Hp; [|done].
    destruct (settle p s) as [resume|] eqn:Hs; [|done].
    unfold seq. destruct (isPAnalyze p) eqn:Ep.
    + destruct p; try discriminate. destruct s; try discriminate.
      inversion Hs; subst resume.
      pose proof (filter_delete_length isPAnalyze _ _ _ Hp) as Hlen.
      simpl in Hlen. unfold analysesInFlight in *.
      rewrite handleAnalyze_resume_loading.
      replace (inflight (handleAnalyze_resume o
                 (with_inflight (delete i (inflight w)) w)))
        with (delete i (inflight w)) by (by destruct o).
      destruct (loading (react w)); lia.
    + assert (Hr : analysis_frame resume).
      { destruct p, s; try discriminate; simpl in Hs.
        - inversion Hs. apply frame_handleFileChange_resume.
        - destruct (askFollowUpQuestion _ _ _ _ _); inversion Hs.
          + apply frame_handleSendMessage_resume.
          + by intros ?. }
      destruct (Hr (with_inflight (delete i (inflight w)) w)) as [Hl Hi].
      unfold analysesInFlight in *. rewrite Hl, Hi. simpl.
      by rewrite (filter_delete_other _ _ _ _ Hp Ep).
Qed.

Lemma step_chat_indicator e w :
  (chatLoading (react w) = true -> (0 < chatsInFlight w)%nat) ->
  chatLoading (react (step e w)) = true -> (0 < chatsInFlight (step e w))%nat.
Proof.
  unfold chatsInFlight. intros Hw.
  destruct e;
    try (open_step; repeat (case_match; simplify_eq); simpl;
         rewrite ?filter_snoc, ?length_app; simpl; rewrite ?app_nil_r;
         first [ exact Hw | discriminate | (intros _; lia)
               | (intros Hcl; specialize (Hw Hcl); lia) ]).
  unfold step. destruct (inflight w !! i) as [p|] eqn:Hp; [|done].
  destruct (settle p s) as [resume|] eqn:Hs; [|done].
  unfold seq. destruct p, s; try discriminate; simpl in Hs.
  - inversion Hs; subst resume.
    replace (chatLoading (react (handleFileChange_resume o
               (with_inflight (delete i (inflight w)) w))))
      with (chatLoading (react w)) by (by destruct o).
    replace (inflight (handleFileChange_resume o
               (with_inflight (delete i (inflight w)) w)))
      with (delete i (inflight w)) by (by destruct o).
    by rewrite (filter_delete_other isPChat _ _ _ Hp).
  - inversion Hs; subst resume.
    replace (chatLoading (react (handleAnalyze_resume o
               (with_inflight (delete i (inflight w)) w))))
      with (chatLoading (react w)) by (by destruct o).
    replace (inflight (handleAnalyze_resume o
               (with_inflight (delete i (inflight w)) w)))
      with (delete i (inflight w)) by (by destruct o).
    by rewrite (filter_delete_other isPChat _ _ _ Hp).
  - destruct (askFollowUpQuestion_total client (fun _ => response)
                historyContext chatHistory (language r)) as [a Ha].
    rewrite Ha in Hs. inversion Hs; subst resume. discriminate.
Qed.

Lemma run_invariant (P : World -> Prop) :
  (forall e w, P w -> P (step e w)) ->
  forall events w, P w -> P (run events w).
Proof.
  intros Hstep events. induction events as [|e events IH]; intros w Hw; [done|].
  simpl. apply IH, Hstep, Hw.
Qed.

Lemma filter_nonempty_lookup {A} (f : A -> bool) (l : list A) :
  (0 < length (List.filter f l))%nat ->
  exists i x, l !! i = Some x /\ f x = true.
Proof.
  induction l as [|a l IH]; simpl; [lia|].
  destruct (f a) eqn:Ha.
  - intros _. by exists 0%nat, a.
  - intros H. destruct (IH H) as (i & x & Hi & Hx). by exists (S i), x.
Qed.

(** X8. In every state the page can reach, [loading] holds exactly while
    one analysis awaits its result, and [chatLoading] holds only while
    some chat request awaits its answer.  So neither indicator can stay
    on for ever: while [loading] holds, the result of the analysis in
    flight, whichever it is, clears it and enables the button again. *)
Theorem X8_indicators_follow_requests (events : list Event)
    (hasRecognition : bool) :
  let w := run events (mount hasRecognition) in
  (loading (react w) = true <-> analysesInFlight w = 1%nat) /\
  (loading (react w) = false <-> analysesInFlight w = 0%nat) /\
  (chatLoading (react w) = true -> (0 < chatsInFlight w)%nat) /\
  (loading (react w) = true ->
   exists i, inflight w !! i = Some PAnalyze /\
             forall o, loading (react (step (Settle i (AnalyzeSettled o)) w))
                       = false).
Proof.
  cbv zeta.
  assert (Hinv : indicators_exact (run events (mount hasRecognition))).
  { apply run_invariant; [|split; [reflexivity|discriminate]].
    intros e w [H1 H2]. split.
    - by apply step_loading_exact.
    - by apply step_chat_indicator. }
  set (w := run events (mount hasRecognition)) in *.
  destruct Hinv as [H1 H2].
  split; [|split; [|split]].
  - destruct (loading (react w)); rewrite H1; split; done.
  - destruct (loading (react w)); rewrite H1; split; done.
  - exact H2.
  - intros Hl. rewrite Hl in H1.
    destruct (filter_nonempty_lookup isPAnalyze (inflight w)) as (i & p & Hi & Hp).
    { unfold analysesInFlight in H1. lia. }
    destruct p; try discriminate. exists i. split; [done|].
    intros o. unfold step. rewrite Hi. by destruct o.
Qed.

(** Witness: while the sample analysis is in flight, its failure clears
    [loading]. *)
Lemma X8_indicators_follow_requests_witness :
  analysesInFlight analyzing = 1%nat /\
  exists i, forall o,
    loading (react (step (Settle i (AnalyzeSettled o)) analyzing)) = false.
Proof.
  destruct (X8_indicators_follow_requests analyze_events true)
    as ([H _] & _ & _ & H').
  split; [exact (H eq_refl)|].
  destruct (H' eq_refl) as (i & _ & Hi). by exists i.
Defined.

(** ** Voice capture *)

Lemma step_without_recognizer e w :
  onresultRender w = None -> listeningRender w = None ->
  (onresultRender (step e w) = None /\ listeningRender (step e w) = None) /\
  List.filter isRecognitionCall (trace (step e w))
    = List.filter isRecognitionCall (trace w) /\
  (isListening (react w) = true -> isListening (react (step e w)) = true).
Proof.
  intros Hw Hl.
  destruct e; open_step; rewrite ?Hw, ?Hl;
    repeat (case_match; simplify_eq); simpl;
    unfold emit, await; simpl;
    rewrite ?List.filter_app; simpl; rewrite ?app_nil_r;
    try (split; [done|split; [done|done]]).
  unfold setLanguage, setState in *. simpl in *. congruence.
Qed.

(** X9. In a browser without speech recognition the microphone button is
    still on the page.  A click on it sets [isListening] without calling
    any recognizer, and from then on no event whatsoever clears
    [isListening] again. *)
Theorem X9_microphone_without_recognizer (before after : list Event) :
  let w := run before (mount false) in
  hasContent (react w) = true ->
  isListening (react (run after (step ClickMic w))) = true /\
  List.filter isRecognitionCall (trace (run after (step ClickMic w))) = [] /\
  onresultRender (run after (step ClickMic w)) = None.
Proof.
  cbv zeta. intros Hc.
  set (P := fun w => (onresultRender w = None /\ listeningRender w = None) /\
                     List.filter isRecognitionCall (trace w) = []).
  assert (HP : forall e w, P w -> P (step e w)).
  { intros e w [[H1 H1'] H2].
    destruct (step_without_recognizer e w H1 H1') as (? & Ht & _).
    split; [done|]. by rewrite Ht. }
  assert (Hw : P (run before (mount false))).
  { apply run_invariant; [exact HP|]. by split. }
  set (w := run before (mount false)) in *.
  assert (Hm : P (step ClickMic w) /\ isListening (react (step ClickMic w)) = true).
  { split; [by apply HP|]. destruct Hw as [[H1 _] _].
    unfold step, toggleListening. rewrite Hc, H1.
    by destruct (isListening (react w)) eqn:E. }
  destruct Hm as [Hm Hl].
  set (Q := fun w => P w /\ isListening (react w) = true).
  assert (HQ : Q (run after (step ClickMic w))).
  { apply run_invariant; [|by split].
    intros e w' [[[H1 H1'] H2] H3].
    destruct (step_without_recognizer e w' H1 H1') as (? & Ht & Hk).
    repeat split; [tauto | tauto | by rewrite Ht | by apply Hk]. }
  destruct HQ as [[[H1 _] H2] H3]. done.
Qed.

(** Witness: after the sample analysis, the recognizer's end event cannot
    switch the microphone off. *)
Lemma X9_microphone_without_recognizer_witness :
  isListening (react (run [VoiceEnd; ClickMic]
                        (step ClickMic (run study_events (mount false)))))
  = true.
Proof.
  apply (X9_microphone_without_recognizer study_events [VoiceEnd; ClickMic]).
  reflexivity.
Defined.





(** ** The player *)

Lemma step_player_flags e w : player_flags_ok w -> player_flags_ok (step e w).
Proof.
  unfold player_flags_ok. intros Hw.
  destruct e; open_step; repeat (case_match; simplify_eq); simpl;
    try first [ exact Hw | done | discriminate ].
  all: rewrite ?andb_true_iff in *; intros; intuition congruence.
Qed.

Lemma step_ref_tracks_queue e w :
  ref_tracks_queue w -> ref_tracks_queue (step e w).
Proof.
  unfold ref_tracks_queue. intros Hw.
  assert (Hnew : forall (l : list Utterance) x f g h,
            (length l < length (alter f (length l) (alter g (length l)
                                  (alter h (length l) (l ++ [x])))))%nat).
  { intros. rewrite !length_alter, length_app. simpl. lia. }
  destruct e; open_step; repeat (case_match; simplify_eq); simpl;
    try first [ exact Hw | by left
              | (right; eexists; split; [reflexivity|split; [reflexivity|apply Hnew]]) ].
  - rewrite length_alter. exact Hw.
  - destruct Hw as [Hq|(uq & Hr & Hq & Hlt)]; rewrite Hq; [by left|].
    rewrite filter_cons, filter_nil. case_decide; [|by left].
    right. by exists uq.
  - destruct Hw as [Hq|(uq & Hr & Hq & Hlt)]; rewrite Hq; [by left|].
    rewrite filter_cons, filter_nil. case_decide; [|by left].
    right. by exists uq.
Qed.

(** X11. In every state the page can reach, [isPaused] holds only while
    [isSpeaking] holds; and whenever the synthesizer has an utterance in
    its queue, it is the single one [currentUtteranceRef] points to, so a
    change of the volume reaches the utterance that is being spoken. *)
Theorem X11_player_state_consistent (events : list Event)
    (hasRecognition : bool) (v : Q) (u : nat) :
  let w := run events (mount hasRecognition) in
  (isPaused (react w) = true -> isSpeaking (react w) = true) /\
  (In u (synthQueue w) ->
   synthQueue w = [u] /\ currentUtteranceRef w = Some u /\
   (u < length (utterances w))%nat /\
   (Qeq_bool (speechVolume (react w)) v = false ->
    utt_volume <$> utterances (SetVolume v w) !! u = Some v)).
Proof.
  cbv zeta. split.
  - apply (run_invariant player_flags_ok); [apply step_player_flags|].
    discriminate.
  - assert (Hinv : ref_tracks_queue (run events (mount hasRecognition))).
    { apply run_invariant; [apply step_ref_tracks_queue|by left]. }
    set (w := run events (mount hasRecognition)) in *.
    intros Hin. destruct Hinv as [Hq|(u0 & Hr & Hq & Hlt)].
    + rewrite Hq in Hin. destruct Hin.
    + rewrite Hq in Hin. destruct Hin as [->|[]].
      repeat split; try done.
      intros Hne. rewrite (SetVolume_changed _ _ Hne).
      unfold volumeEffect. simpl. rewrite Hr. simpl.
      rewrite list_lookup_alter_eq.
      destruct (lookup_lt_is_Some_2 (utterances w) u Hlt) as [ut ->].
      reflexivity.
Qed.

(** Witness: the narration of the sample session and the slider at 0.3. *)
Lemma X11_player_state_consistent_witness :
  synthQueue narrating = [0%nat] /\
  utt_volume <$> utterances (SetVolume (3 # 10)%Q narrating) !! 0%nat
    = Some (3 # 10)%Q.
Proof.
  pose proof (X11_player_state_consistent narrate_events true (3 # 10)%Q 0) as H.
  cbv zeta in H. unfold narrating. destruct H as [_ H].
  assert (Hin : In 0%nat (synthQueue (run narrate_events (mount true))))
    by (vm_compute; by left).
  assert (Hne : Qeq_bool (speechVolume (react (run narrate_events (mount true))))
                  (3 # 10)%Q = false)
    by (vm_compute; reflexivity).
  destruct (H Hin) as (H1 & _ & _ & H2).
  split; [exact H1 | exact (H2 Hne)].
Defined.

(** X12. [stopSpeaking] and [speakContent] never ask the synthesizer to
    resume.  After Pause, Stop and Read Aloud, in this order, the trace
    holds a pause, two cancels and the new speak, and no resume: the new
    utterance is queued on a synthesizer that is still paused, while the
    page shows it as speaking and not paused. *)
Theorem X12_stop_does_not_resume (w : World) :
  hasContent (react w) = true ->
  isSpeaking (react w) = true ->
  isPaused (react w) = false ->
  let w' := run pause_stop_replay w in
  trace w' = trace w ++ [SynthPause; SynthCancel; SynthCancel;
                         SynthSpeak (length (utterances w))] /\
  synthPaused w' = true /\
  synthQueue w' = [length (utterances w)] /\
  isSpeaking (react w') = true /\
  isPaused (react w') = false.
Proof.
  intros Hc Hs Hp. cbv zeta.
  change (run pause_stop_replay w)
    with (step ClickReadAloud (step ClickStop (step ClickTogglePause w))).
  assert (H1 : step ClickTogglePause w
               = setIsPaused true (synth_pause w)).
  { unfold step, clickTogglePause, togglePause. by rewrite Hc, Hs, Hp. }
  rewrite H1.
  assert (H2 : step ClickStop (setIsPaused true (synth_pause w))
               = stopSpeaking (setIsPaused true (synth_pause w))).
  { unfold step. simpl. unfold hasContent in *. simpl. by rewrite Hc, Hs. }
  rewrite H2.
  destruct (content (react w)) as [c|] eqn:Ec;
    [|unfold hasContent in Hc; rewrite Ec in Hc; discriminate].
  assert (H3 : step ClickReadAloud (stopSpeaking (setIsPaused true (synth_pause w)))
               = speakContent (react (stopSpeaking (setIsPaused true (synth_pause w))))
                   (textToRead c) None
                   (stopSpeaking (setIsPaused true (synth_pause w)))).
  { unfold step, handleReadAloud, hasContent. simpl. by rewrite Ec. }
  rewrite H3, speakContent_unfold. cbv zeta. simpl.
  rewrite <- !app_assoc. repeat split.
Qed.

(** Witness: the narration of the sample session. *)
Lemma X12_stop_does_not_resume_witness :
  synthPaused (run pause_stop_replay narrating) = true /\
  isPaused (react (run pause_stop_replay narrating)) = false /\
  synthQueue (run pause_stop_replay narrating) = [1%nat].
Proof.
  destruct (X12_stop_does_not_resume narrating)
    as (_ & H1 & H2 & _ & H3); [reflexivity | reflexivity | reflexivity |].
  split; [exact H1|]. split; [exact H3 | exact H2].
Defined.

(** X13. Every utterance [speakContent] creates has the text it was given,
    the rate 0.9, the volume of the render, and a language tag that is
    never empty: [forceLang] when it is given and not empty, else the voice
    of the language of the render.  The utterances created before are not
    modified. *)
Theorem X13_speakContent_utterance (r : ReactState) (text : jsstring)
    (forceLang : option jsstring) (w : World) :
  exists ut,
    utterances (speakContent r text forceLang w) !! length (utterances w)
      = Some ut /\
    utt_text ut = text /\
    utt_rate ut = (9 # 10)%Q /\
    utt_volume ut = speechVolume r /\
    utt_lang ut <> "" /\
    (forall l, forceLang = Some l -> l <> "" -> utt_lang ut = l) /\
    (opt_falsy forceLang = true ->
     utt_lang ut = voiceCode (LANGUAGE_CONFIG (language r))) /\
    (forall u, (u < length (utterances w))%nat ->
       utterances (speakContent r text forceLang w) !! u = utterances w !! u) /\
    length (utterances (speakContent r text forceLang w))
      = S (length (utterances w)).
Proof.
  assert (Hv : forall l, voiceCode (LANGUAGE_CONFIG l) <> "")
    by (intros []; discriminate).
  assert (Hold : forall u, (u < length (utterances w))%nat ->
            utterances (speakContent r text forceLang w) !! u
            = utterances w !! u).
  { intros u Hu. rewrite speakContent_unfold. cbv zeta. simpl utterances.
    rewrite !list_lookup_alter_ne by lia. by apply lookup_app_l. }
  assert (Hlen : length (utterances (speakContent r text forceLang w))
                 = S (length (utterances w))).
  { rewrite speakContent_unfold. cbv zeta. simpl utterances.
    rewrite !length_alter, length_app. simpl. lia. }
  eexists. split; [apply speakContent_utterance|].
  simpl utt_text. simpl utt_rate. simpl utt_volume. simpl utt_lang.
  split; [done|]. split; [done|]. split; [done|].
  split; [|split; [|split; [|split; [exact Hold|exact Hlen]]]].
  - destruct forceLang as [[|a l]|]; simpl; first [apply Hv | discriminate].
  - intros l -> Hl. by destruct l.
  - destruct forceLang as [[|a l]|]; simpl; first [done | discriminate].
Qed.

(** Witness: an explicit voice wins over the language of the render. *)
Lemma X13_speakContent_utterance_witness :
  utt_lang <$> utterances (speakContent initialState "Hola" (Some "es-ES")
                             (mount true)) !! 0%nat = Some "es-ES" /\
  utt_lang <$> utterances (speakContent initialState "Hello" (Some "")
                             (mount true)) !! 0%nat = Some "en-US".
Proof.
  destruct (X13_speakContent_utterance initialState "Hola" (Some "es-ES")
              (mount true)) as (ut & Hu & _ & _ & _ & _ & H & _).
  destruct (X13_speakContent_utterance initialState "Hello" (Some "")
              (mount true)) as (ut' & Hu' & _ & _ & _ & _ & _ & H' & _).
  change (length (utterances (mount true))) with 0%nat in Hu, Hu'.
  split.
  - rewrite Hu. simpl. f_equal. apply (H "es-ES"); [reflexivity|discriminate].
  - rewrite Hu'. simpl. f_equal. apply H'. reflexivity.
Defined.

Local Open Scope Q_scope.

(** X14. The progress of a word boundary beyond the text is clamped: at a
    character index at or after the end of a non-empty text it is 100.
    For an empty text the division by the length is not guarded: a word
    boundary at index 0 makes the progress NaN, and one at a later index
    makes it 100.  A boundary that is not a word boundary changes
    nothing. *)
Theorem X14_progress_edges (u : nat) (ut : Utterance) (c : N) (w : World) :
  utterances w !! u = Some ut ->
  ((0 < N.of_nat (jslength (utt_text ut)) <= c)%N ->
     js_eq (speechProgress (react (utterance_onboundary u "word" c w)))
           (Num 100)) /\
  (utt_text ut = EmptyJs ->
     speechProgress (react (utterance_onboundary u "word" 0 w)) = NaN /\
     ((0 < c)%N ->
      speechProgress (react (utterance_onboundary u "word" c w)) = Num 100)) /\
  (forall name, jseqb name "word" = false ->
     utterance_onboundary u name c w = w).
Proof.
  intros Hu. split; [|split].
  - intros [Hlen Hc]. rewrite (utterance_onboundary_word _ _ _ _ Hu Hlen).
    simpl. apply Q.min_r.
    apply Qle_trans with (1 * 100); [vm_compute; discriminate|].
    apply Qmult_le_compat_r; [|discriminate].
    apply Qle_shift_div_l.
    + change 0 with (inject_Z 0). rewrite <- Zlt_Qlt. lia.
    + rewrite Qmult_1_l. rewrite <- Zle_Qle. lia.
  - intros Ht. unfold utterance_onboundary. rewrite Hu, Ht. simpl.
    split; [reflexivity|]. intros Hc. unfold js_div. simpl.
    destruct c; [lia|reflexivity].
  - intros name Hn. by apply utterance_onboundary_other.
Qed.

(** Witness: "Hello world" has 11 characters; an empty utterance. *)
Lemma X14_progress_edges_witness :
  js_eq (speechProgress
           (react (utterance_onboundary 0 "word" 11
                     (speakContent initialState "Hello world" None (mount true)))))
        (Num 100) /\
  speechProgress
    (react (utterance_onboundary 0 "word" 0
              (speakContent initialState "" None (mount true)))) = NaN.
Proof.
  split.
  - eapply (X14_progress_edges 0 _ 11
              (speakContent initialState "Hello world" None (mount true)));
      [reflexivity | simpl; lia].
  - eapply (X14_progress_edges 0 _ 0
              (speakContent initialState "" None (mount true)));
      reflexivity.
Defined.

Local Close Scope Q_scope.

(** ** The Content Analyzer *)

(** X15. [analyzeImageContent] fulfils exactly when the client can be
    built, the request for this image and language is answered with a
    non-empty text, and [JSON.parse] of that text does not throw; it then
    fulfils with the value of the parse, unchecked.  It rejects when the
    client cannot be built, when the request fails, when the answer has no
    text or an empty one, and when the parse throws. *)
Theorem X15_analyzeImageContent_outcome (JsValue : Type)
    (newGoogleGenAI : Completion unit)
    (generateContent : AnalysisRequest -> Completion GenerateContentResponse)
    (JSON_parse : jsstring -> Completion JsValue)
    (base64Image : jsstring) (language : AppLanguage) :
  let result :=
    analyzeImageContent JsValue newGoogleGenAI generateContent JSON_parse
      base64Image language in
  let request := analysisRequest base64Image language in
  (forall v,
     result = Return v <->
     newGoogleGenAI = Return tt /\
     exists t, generateContent request = Return {| response_text := Some t |} /\
               str_falsy t = false /\ JSON_parse t = Return v) /\
  (newGoogleGenAI = Throw -> result = Throw) /\
  (generateContent request = Throw -> result = Throw) /\
  (forall t, generateContent request = Return {| response_text := t |} ->
             opt_falsy t = true -> result = Throw) /\
  (forall t, generateContent request = Return {| response_text := Some t |} ->
             JSON_parse t = Throw -> result = Throw).
Proof.
  cbv zeta. unfold analyzeImageContent, try_catch.
  destruct newGoogleGenAI as [[]|]; simpl;
    [destruct (generateContent (analysisRequest base64Image language))
       as [[[t|]]|] eqn:Hg; simpl;
     [destruct (str_falsy t) eqn:Ht; [|destruct (JSON_parse t) as [v'|] eqn:Hp]
     | | ] | ];
    (split; [intros v; split|]);
    repeat split; intros;
    repeat match goal with
           | H : _ /\ _ |- _ => destruct H
           | H : exists _, _ |- _ => destruct H
           end;
    simplify_eq/=; try done; try congruence; eauto 10.
Qed.

(** Witness: an SDK that answers with a text that parses, and one whose
    answer has no text. *)
Lemma X15_analyzeImageContent_outcome_witness :
  analyzeImageContent LearningContent (Return tt)
    (fun _ => Return {| response_text := Some "{...}" |})
    (fun _ => Return lesson) "QUJD" ENGLISH = Return lesson /\
  analyzeImageContent LearningContent (Return tt)
    (fun _ => Return {| response_text := None |})
    (fun _ => Return lesson) "QUJD" ENGLISH = Throw.
Proof.
  destruct (X15_analyzeImageContent_outcome LearningContent (Return tt)
              (fun _ => Return {| response_text := Some "{...}" |})
              (fun _ => Return lesson) "QUJD" ENGLISH) as [H _].
  destruct (X15_analyzeImageContent_outcome LearningContent (Return tt)
              (fun _ => Return {| response_text := None |})
              (fun _ => Return lesson) "QUJD" ENGLISH) as (_ & _ & _ & H' & _).
  split.
  - apply H. split; [reflexivity|]. exists "{...}". repeat split.
  - apply (H' None); reflexivity.
Defined.

(** ** Image and language controls *)

(** X16. Removing the image clears the image and the error and nothing
    else: the LearningRecord, the chat log, the requests in flight and the
    narration stay.  Afterwards the Analyze button does nothing. *)
Theorem X16_remove_image (w : World) :
  let w' := step ClickRemoveImage w in
  opt_falsy (image (react w')) = true /\
  content (react w') = content (react w) /\
  messages (react w') = messages (react w) /\
  loading (react w') = loading (react w) /\
  isSpeaking (react w') = isSpeaking (react w) /\
  inflight w' = inflight w /\
  trace w' = trace w /\
  synthQueue w' = synthQueue w /\
  (opt_falsy (image (react w)) = false ->
   image (react w') = None /\ error (react w') = None) /\
  clickAnalyze w' = w'.
Proof.
  cbv zeta. unfold step.
  destruct (opt_falsy (image (react w))) eqn:E.
  - repeat split; try done. apply clickAnalyze_disabled. by rewrite E.
  - repeat split.
Qed.

(** Witness: the image of the sample session is removed after the
    analysis; the lesson stays on the page. *)
Lemma X16_remove_image_witness :
  image (react (step ClickRemoveImage studied)) = None /\
  content (react (step ClickRemoveImage studied)) = Some lesson.
Proof.
  destruct (X16_remove_image studied) as (_ & H & _ & _ & _ & _ & _ & _ & H' & _).
  destruct (H' eq_refl) as [H1 _]. split; [exact H1|]. rewrite H. reflexivity.
Defined.

(** X17. Selecting a language interrupts nothing: image, LearningRecord,
    chat log, indicators, requests in flight, narration and trace are as
    before.  The next analysis started from the page asks for the new
    language. *)
Theorem X17_select_language (l : AppLanguage) (w : World) :
  let w' := step (SelectLanguage l) w in
  language (react w') = l /\
  image (react w') = image (react w) /\
  content (react w') = content (react w) /\
  messages (react w') = messages (react w) /\
  loading (react w') = loading (react w) /\
  chatLoading (react w') = chatLoading (react w) /\
  inflight w' = inflight w /\
  trace w' = trace w /\
  synthQueue w' = synthQueue w /\
  utterances w' = utterances w /\
  (forall img, image (react w) = Some img -> str_falsy img = false ->
     loading (react w) = false ->
     last (trace (clickAnalyze w')) = Some (AnalyzerCall img l)).
Proof.
  cbv zeta. unfold step, seq, commitLanguage.
  set (w1 := setLanguage l w).
  assert (Hw' : forall P : World -> Prop,
            P w1 -> (forall r0, P (with_onresultRender (Some r0) w1)) ->
            P (if AppLanguage_eqb (language (react w)) (language (react w1))
               then w1
               else match onresultRender w1 with
                    | Some _ => with_onresultRender (Some (react w1)) w1
                    | None => w1
                    end)).
  { intros P H1 H2. repeat case_match; auto. }
  apply Hw'; [|intros r0]; repeat split;
    intros img Hi Hf Hl;
    unfold clickAnalyze; simpl; rewrite Hi, Hl; simpl; rewrite Hf; simpl;
    unfold handleAnalyze; simpl; rewrite Hi, Hf; simpl;
    apply last_snoc.
Qed.

(** Witness: Hindi is selected before the sample analysis is started. *)
Lemma X17_select_language_witness :
  last (trace (clickAnalyze (step (SelectLanguage HINDI) uploaded)))
  = Some (AnalyzerCall "QUJD" HINDI).
Proof.
  destruct (X17_select_language HINDI uploaded)
    as (_ & _ & _ & _ & _ & _ & _ & _ & _ & _ & H).
  apply H; reflexivity.
Defined.

(** X18. The locale table gives every language one tag for recognition
    and speech alike, and no two languages share a tag; the values of the
    enumeration are pairwise different too. *)
Theorem X18_LANGUAGE_CONFIG_injective (a b : AppLanguage) :
  code (LANGUAGE_CONFIG a) = voiceCode (LANGUAGE_CONFIG a) /\
  (voiceCode (LANGUAGE_CONFIG a) = voiceCode (LANGUAGE_CONFIG b) -> a = b) /\
  (AppLanguage_value a = AppLanguage_value b -> a = b).
Proof.
  split; [by destruct a|].
  split; destruct a, b; simpl; intros H; first [reflexivity | discriminate H].
Qed.

(** Witness: Hindi and Spanish have different voices. *)
Lemma X18_LANGUAGE_CONFIG_injective_witness :
  voiceCode (LANGUAGE_CONFIG HINDI) <> voiceCode (LANGUAGE_CONFIG SPANISH).
Proof.
  intros H.
  destruct (X18_LANGUAGE_CONFIG_injective HINDI SPANISH) as (_ & Hinj & _).
  discriminate (Hinj H).
Defined.
